(** * pyblish-qml: the publish controller and the window close policy

    A shallow embedding of [pyblish_qml/controller.py] (class [Controller])
    and of [Window.event] from [pyblish_qml/app.py].

    The controller is stateful Python: its methods mutate two item models
    and two flags, emit Qt signals, and talk to the host through
    [rest.request].  Here a method is a computation in a state-and-exception
    monad over the record [Controller]; everything observable from outside
    (signals, host requests, log lines, thread starts) is appended, in
    program order, to the [trace] component of that record. *)

From Stdlib Require Import ZArith Lia.
From stdpp Require Import base list strings gmap.

Local Open Scope string_scope.
Local Open Scope list_scope.
Local Open Scope Z_scope.

(** ** Python values used by the controller *)

(** Exceptions that can travel through the modelled code. *)
Inductive exn :=
| Exception (message : string)            (* [raise Exception(...)] in [publish] *)
| AttributeError (attribute : string)     (* attribute lookup on an object lacking it *)
| IndexOutOfRangeError                    (* [itemFromIndex] outside [0, len) *)
| ImmutableFieldError                     (* [setData] refusing to clear [isToggled] *)
| HostUnavailableError (msg : option string).
                                          (* raised by the transport; [msg] is its
                                             attribute of that name, when it has one *)

(** [getattr(e, "msg")]: the built-in [Exception] keeps its arguments in
    [args]; it has no attribute [msg]. *)
Definition getattr_msg (e : exn) : option string :=
  match e with
  | HostUnavailableError m => m
  | _ => None
  end.

(** Outcome of a call: it returns a value or raises. *)
Inductive result (A : Type) :=
| Returned (a : A)
| Raised (e : exn).
Arguments Returned {A} a.
Arguments Raised {A} e.

(** ** model.py: items and item collections *)

Module model.

(** One work unit.  [publish] and [active] are the optional tri-state keys
    of a host record ([None] when the key is absent). *)
Record Item := {
  name : string;
  type : string;
  optional : bool;
  publish : option bool;
  active : option bool;
  isToggled : bool;
  isProcessing : bool;
  currentProgress : Z;
  hasError : bool;
  succeeded : bool
}.

(** The pairs [(field, value)] the controller passes to [setData]. *)
Inductive assignment :=
| IsToggled (b : bool)
| IsProcessing (b : bool)
| CurrentProgress (n : Z)
| HasError (b : bool)
| Succeeded (b : bool).

(** [setattr(item, field, value)] *)
Definition setattr (item : Item) (a : assignment) : Item :=
  match a with
  | IsToggled b =>
      {| name := name item; type := type item; optional := optional item;
         publish := publish item; active := active item;
         isToggled := b; isProcessing := isProcessing item;
         currentProgress := currentProgress item;
         hasError := hasError item; succeeded := succeeded item |}
  | IsProcessing b =>
      {| name := name item; type := type item; optional := optional item;
         publish := publish item; active := active item;
         isToggled := isToggled item; isProcessing := b;
         currentProgress := currentProgress item;
         hasError := hasError item; succeeded := succeeded item |}
  | CurrentProgress n =>
      {| name := name item; type := type item; optional := optional item;
         publish := publish item; active := active item;
         isToggled := isToggled item; isProcessing := isProcessing item;
         currentProgress := n;
         hasError := hasError item; succeeded := succeeded item |}
  | HasError b =>
      {| name := name item; type := type item; optional := optional item;
         publish := publish item; active := active item;
         isToggled := isToggled item; isProcessing := isProcessing item;
         currentProgress := currentProgress item;
         hasError := b; succeeded := succeeded item |}
  | Succeeded b =>
      {| name := name item; type := type item; optional := optional item;
         publish := publish item; active := active item;
         isToggled := isToggled item; isProcessing := isProcessing item;
         currentProgress := currentProgress item;
         hasError := hasError item; succeeded := b |}
  end.

(** Modelled from the spec: [model.py] is not among the sources.  The
    collection is an ordered sequence of items; [addItem] appends (the
    reference behaviour tolerates duplicate names). *)
Definition addItem (items : list Item) (item : Item) : list Item :=
  items ++ [item].

(** Modelled from the spec: [itemFromIndex(i)] of the absent [model.py]
    returns the item at position [i] and fails with [IndexOutOfRangeError]
    when [i] is outside [0, len). *)
Definition itemFromIndex (items : list Item) (index : Z) : result Item :=
  if (0 <=? index) && (index <? Z.of_nat (length items)) then
    match items !! Z.to_nat index with
    | Some item => Returned item
    | None => Raised IndexOutOfRangeError
    end
  else Raised IndexOutOfRangeError.

(** The one mutation the spec has [setField] reject. *)
Definition clears_mandatory (item : Item) (a : assignment) : bool :=
  match a with
  | IsToggled false => negb (optional item)
  | _ => false
  end.

(** Modelled from the spec: [setData(index, field, value)] of the absent
    [model.py] (the spec's [setField]) mutates one named field of the item
    at [index] and rejects, with [ImmutableFieldError], an attempt to
    clear [isToggled] on a non-optional item. *)
Definition setData (items : list Item) (index : Z) (a : assignment)
  : result (list Item) :=
  match itemFromIndex items index with
  | Raised e => Raised e
  | Returned item =>
      if clears_mandatory item a then Raised ImmutableFieldError
      else Returned (<[Z.to_nat index := setattr item a]> items)
  end.

(** Modelled from the spec: [serialized] of the absent [model.py] yields
    one plain record per item, all fields, in collection order. *)
Definition serialized (items : list Item) : list Item := items.

(** [for item in model_.items: index = model_.itemIndex(item)]: the items
    of a collection are distinct objects and [itemIndex] looks an item up
    by identity, so the index found is the position being visited. *)
Fixpoint enumerate_from (start : nat) (items : list Item) : list (Z * Item) :=
  match items with
  | [] => []
  | item :: items' => (Z.of_nat start, item) :: enumerate_from (S start) items'
  end.

Definition enumerate (items : list Item) : list (Z * Item) :=
  enumerate_from 0 items.

End model.

(** ** rest.py: what the host answers *)

Module rest.

(** The record a step of the pipeline reports ([response.json()] of
    [POST /next]): the keys [instance] and [plugin] may be absent, and
    [error] is read for its truth value only. *)
Record step_result := {
  instance : option string;
  plugin : option string;
  error : bool
}.

(** A response object: its status, what [response.get("message")] gives,
    and its decoded body. *)
Record response := {
  status_code : Z;
  message : option string;
  json : step_result
}.

(** A call of [rest.request] returns a response or the transport raises. *)
Inductive reply :=
| Replies (r : response)
| Fails (e : exn).

(** Body of a request: [data={"state": json.dumps({"context": ..,
    "plugins": ..})}], kept structured. *)
Inductive payload :=
| State (context plugins : list string).

(** What the host answers to [POST /next] once it has no work left. *)
Definition no_more_work : response :=
  {| status_code := 404; message := None;
     json := {| instance := None; plugin := None; error := false |} |}.

End rest.

(** ** controller.py *)

Module controller.
Import model rest.

(** What an observer of the controller sees, in program order. *)
Inductive event :=
| Error (message : string)                   (* [self.error.emit(message)] *)
| Info (message : string)                    (* [self.info.emit(message)] *)
| Processed (data : step_result)             (* [self.processed.emit(data)] *)
| Finished                                   (* [self.finished.emit()] *)
| LogError (message : string)                (* [self.log.error(message)] *)
| Request (verb endpoint : string) (data : option payload)
                                             (* [rest.request(verb, endpoint, data)] *)
| ThreadStart.                               (* [thread.start()] on the worker *)

(** The attributes of [Controller] that its methods read or write, and
    the trace of what it did. *)
Record Controller := {
  _instance_model : list Item;
  _plugin_model : list Item;
  _system : string;
  _has_errors : bool;
  _is_running : bool;
  trace : list event
}.

(** [Controller.__init__] *)
Definition __init__ : Controller :=
  {| _instance_model := []; _plugin_model := []; _system := "";
     _has_errors := false; _is_running := false; trace := [] |}.

(** The two collections, for [for model_ in (self._instance_model,
    self._plugin_model)]. *)
Inductive which := Instances | Plugins.

Definition get_model (w : which) (c : Controller) : list Item :=
  match w with
  | Instances => _instance_model c
  | Plugins => _plugin_model c
  end.

Definition set_model (w : which) (items : list Item) (c : Controller)
  : Controller :=
  match w with
  | Instances =>
      {| _instance_model := items; _plugin_model := _plugin_model c;
         _system := _system c; _has_errors := _has_errors c;
         _is_running := _is_running c; trace := trace c |}
  | Plugins =>
      {| _instance_model := _instance_model c; _plugin_model := items;
         _system := _system c; _has_errors := _has_errors c;
         _is_running := _is_running c; trace := trace c |}
  end.

Definition set_system (s : string) (c : Controller) : Controller :=
  {| _instance_model := _instance_model c; _plugin_model := _plugin_model c;
     _system := s; _has_errors := _has_errors c;
     _is_running := _is_running c; trace := trace c |}.

Definition set_has_errors (b : bool) (c : Controller) : Controller :=
  {| _instance_model := _instance_model c; _plugin_model := _plugin_model c;
     _system := _system c; _has_errors := b;
     _is_running := _is_running c; trace := trace c |}.

Definition set_is_running (b : bool) (c : Controller) : Controller :=
  {| _instance_model := _instance_model c; _plugin_model := _plugin_model c;
     _system := _system c; _has_errors := _has_errors c;
     _is_running := b; trace := trace c |}.

Definition record (e : event) (c : Controller) : Controller :=
  {| _instance_model := _instance_model c; _plugin_model := _plugin_model c;
     _system := _system c; _has_errors := _has_errors c;
     _is_running := _is_running c; trace := trace c ++ [e] |}.

(** *** The monad of methods *)

Definition M (A : Type) : Type := Controller -> result A * Controller.

#[global] Instance M_ret : MRet M := λ A a c, (Returned a, c).

#[global] Instance M_bind : MBind M := λ A B f m c,
  match m c with
  | (Returned a, c') => f a c'
  | (Raised e, c') => (Raised e, c')
  end.

Definition raise {A} (e : exn) : M A := λ c, (Raised e, c).
Definition gets {A} (f : Controller -> A) : M A := λ c, (Returned (f c), c).
Definition modify (f : Controller -> Controller) : M unit :=
  λ c, (Returned tt, f c).
Definition emit (e : event) : M unit := modify (record e).

(** [try: body except Exception as e: handler(e)] *)
Definition try_except {A} (body : M A) (handler : exn -> M A) : M A :=
  λ c, match body c with
       | (Returned a, c') => (Returned a, c')
       | (Raised e, c') => handler e c'
       end.

(** A [for] loop whose body may [return] from the enclosing method. *)
Inductive flow := Next | Return.

Fixpoint for_each {A} (l : list A) (body : A -> M flow) : M unit :=
  match l with
  | [] => mret tt
  | x :: l' =>
      f ← body x;
      match f with
      | Next => for_each l' body
      | Return => mret tt
      end
  end.

(** [model.itemFromIndex(index)] and [model.setData(index, field, value)]
    on one of the controller's two models. *)
Definition itemFromIndex (w : which) (index : Z) : M Item :=
  λ c, (model.itemFromIndex (get_model w c) index, c).

Definition setData (w : which) (index : Z) (a : assignment) : M unit :=
  λ c, match model.setData (get_model w c) index a with
       | Returned items => (Returned tt, set_model w items c)
       | Raised e => (Raised e, c)
       end.

(** *** Slots called from QML *)

(** [Controller._toggle_item] *)
Definition _toggle_item (w : which) (index : Z) : M unit :=
  running ← gets _is_running;
  if running : bool then
    emit (Error "Cannot untick while publishing")
  else
    item ← itemFromIndex w index;
    setData w index (IsToggled (negb (isToggled item))).

(** [Controller.toggleInstance] *)
Definition toggleInstance (index : Z) : M unit :=
  _toggle_item Instances index.

(** [Controller.togglePlugin] *)
Definition togglePlugin (index : Z) : M unit :=
  item ← itemFromIndex Plugins index;
  if optional item then
    _toggle_item Plugins index
  else
    emit (Error "Plug-in is mandatory").


(** [Controller._item_data]: "Return item data as dict", the attributes of
    the item at [index]. *)
Definition _item_data (w : which) (index : Z) : M Item :=
  itemFromIndex w index.

(** [Controller.pluginData] *)
Definition pluginData (index : Z) : M Item := _item_data Plugins index.

(** [Controller.instanceData] *)
Definition instanceData (index : Z) : M Item := _item_data Instances index.

(** *** Resets *)

(** [Controller.reset_state]: "Reset data from last publish" *)
Definition reset_state : M unit :=
  for_each [Instances; Plugins] (λ model_,
    items ← gets (get_model model_);
    for_each (enumerate items) (λ '(index, item),
      setData model_ index (HasError false);;
      setData model_ index (Succeeded false);;
      mret Next);;
    mret Next).

(** [Controller.reset]: the slot bound to the reset button *)
Definition reset : M unit := reset_state.

(** [Controller.reset_status]: "Reset progress bars".  The body of the
    reply to [POST /session] is decoded and dropped. *)
Definition reset_status : M unit :=
  emit (Request "POST" "/session" None);;
  modify (set_has_errors false);;
  modify (set_is_running false);;
  for_each [Instances; Plugins] (λ model_,
    items ← gets (get_model model_);
    for_each (enumerate items) (λ '(index, item),
      setData model_ index (IsProcessing false);;
      setData model_ index (CurrentProgress 0);;
      mret Next);;
    mret Next).

(** [Controller.finished_handler], connected to [finished] in [__init__] *)
Definition finished_handler : M unit := reset_status.

(** [self.finished.emit()] when the slot runs on the spot, as it does for
    an emission made in the main thread ([publish]): the signal is seen,
    then [finished_handler] runs. *)
Definition emit_finished : M unit :=
  emit Finished;; finished_handler.

(** *** Folding a step result into the models *)

(** [Controller.update_instances] *)
Definition update_instances (data : step_result) : M unit :=
  items ← gets (get_model Instances);
  for_each (enumerate items) (λ '(index, item),
    let current_item := instance data in
    if decide (current_item = Some (name item)) then
      setData Instances index (IsProcessing true);;
      setData Instances index (CurrentProgress 1);;
      (if error data then setData Instances index (HasError true)
       else setData Instances index (Succeeded true));;
      mret Next
    else
      setData Instances index (IsProcessing false);;
      mret Next).

(** [Controller.update_plugins] *)
Definition update_plugins (data : step_result) : M unit :=
  items ← gets (get_model Plugins);
  for_each (enumerate items) (λ '(index, item),
    let current_item := plugin data in
    if decide (current_item = Some (name item)) then
      let mark :=
        setData Plugins index (IsProcessing true);;
        setData Plugins index (CurrentProgress 1);;
        (if error data then
           setData Plugins index (HasError true);;
           modify (set_has_errors true)
         else setData Plugins index (Succeeded true));;
        mret Next in
      has_errors ← gets _has_errors;
      if has_errors : bool then
        if bool_decide (type item = "Extractor") then
          emit (Info "Stopped due to failed vaildation");;
          modify (set_is_running false);;
          mret Return
        else mark
      else mark
    else
      setData Plugins index (IsProcessing false);;
      mret Next).

(** [Controller.process_handler], connected to [processed] in [__init__] *)
Definition process_handler (data : step_result) : M unit :=
  update_instances data;;
  update_plugins data.

(** [self.processed.emit(data)] when the slot runs on the spot, as it does
    for an emission made in the thread the controller lives in.  For an
    emission made by the worker thread, whose slot is queued, see
    [worker_turn] and [main_turn] below. *)
Definition emit_processed (data : step_result) : M unit :=
  emit (Processed data);; process_handler data.

(** *** The processing loop *)

(** One run of the [worker] closure of [Controller.start]: the one in
    which the main thread handles every notification as soon as the worker
    has emitted it, no request raises, and the host gives the replies
    [pending] to the successive [POST /next] requests and then reports
    [no_more_work].  [response] is the reply to the request already made.
    All the runs of the worker are those of [run] below, of which this is
    one. *)
Fixpoint worker_loop (pending : list response) (response : response)
  : M unit :=
  running ← gets _is_running;
  if (running : bool) && bool_decide (status_code response = 200) then
    emit_processed (json response);;
    emit (Request "POST" "/next" None);;
    match pending with
    | response' :: pending' => worker_loop pending' response'
    | [] => emit_finished      (* the reply is [no_more_work]: the loop ends *)
    end
  else emit_finished.

Definition worker (replies : list response) : M unit :=
  emit (Request "POST" "/next" None);;
  match replies with
  | response :: pending => worker_loop pending response
  | [] => worker_loop [] no_more_work
  end.

(** [Controller.start]: the worker is handed to a new thread; what it
    does is [worker], and it begins after [start] has reset the items. *)
Definition start : M unit :=
  reset_state;;
  emit ThreadStart.

(** *** The worker thread and the main thread

    [start] runs the worker on a [threading.Thread], while the controller
    lives in the main thread and its slots are connected with the default
    connection: a notification the worker emits is not handled on the
    spot, its slot is queued and runs when the main thread comes to it.
    The worker and the main thread take turns in any order; the worker's
    turns are the steps of the closure, a turn of the main thread runs the
    slot at the head of its queue. *)

(** A slot waiting in the queue of the main thread. *)
Inductive slot :=
| ProcessedSlot (data : step_result)     (* [process_handler(data)] *)
| FinishedSlot.                          (* [finished_handler()] *)

(** What a call of [rest.request("POST", "/next")] comes back with: a
    response, given by its status and its decoded body ([None] when the
    body does not decode, and [response.json()] raises), or an exception
    of the transport. *)
Inductive answer :=
| Answer (status : Z) (body : option step_result)
| Breaks (e : exn).

Definition answer_of (r : response) : answer :=
  Answer (status_code r) (Some (json r)).

(** Where the worker is in its closure. *)
Inductive thread :=
| Requesting                      (* about to call [rest.request] *)
| Waiting                         (* the request is out, no answer yet *)
| Testing (status : Z) (body : option step_result)
                                  (* at the test of the [while] *)
| Emitting (body : option step_result)
                                  (* in the loop, about to emit [processed] *)
| Finishing                       (* past the loop, about to emit [finished] *)
| Done                            (* returned *)
| Died.                           (* ended by an exception nothing catches *)

(** The controller both threads share, the queue of the main thread, the
    worker, and the answers the host will give to the requests to come. *)
Record system := {
  shared : Controller;
  queue : list slot;
  position : thread;
  host : list answer
}.

(** The system as [thread.start()] leaves it. *)
Definition spawn (c : Controller) (answers : list answer) : system :=
  {| shared := c; queue := []; position := Requesting; host := answers |}.

(** One step of the worker. *)
Definition worker_turn (s : system) : system :=
  match position s with
  | Requesting =>
      {| shared := record (Request "POST" "/next" None) (shared s);
         queue := queue s; position := Waiting; host := host s |}
  | Waiting =>
      match host s with
      | [] => s
      | Answer status body :: answers =>
          {| shared := shared s; queue := queue s;
             position := Testing status body; host := answers |}
      | Breaks _ :: answers =>
          {| shared := shared s; queue := queue s;
             position := Died; host := answers |}
      end
  | Testing status body =>
      {| shared := shared s; queue := queue s;
         position := if _is_running (shared s)
                        && bool_decide (status = 200)
                     then Emitting body else Finishing;
         host := host s |}
  | Emitting None =>
      {| shared := shared s; queue := queue s;
         position := Died; host := host s |}
  | Emitting (Some data) =>
      {| shared := record (Processed data) (shared s);
         queue := queue s ++ [ProcessedSlot data];
         position := Requesting; host := host s |}
  | Finishing =>
      {| shared := record Finished (shared s);
         queue := queue s ++ [FinishedSlot];
         position := Done; host := host s |}
  | Done | Died => s
  end.

(** One turn of the main thread: the slot at the head of the queue. *)
Definition main_turn (s : system) : system :=
  match queue s with
  | [] => s
  | ProcessedSlot data :: slots =>
      {| shared := (process_handler data (shared s)).2;
         queue := slots; position := position s; host := host s |}
  | FinishedSlot :: slots =>
      {| shared := (finished_handler (shared s)).2;
         queue := slots; position := position s; host := host s |}
  end.

Inductive turn := Worker | Main.

Definition take_turn (s : system) (t : turn) : system :=
  match t with
  | Worker => worker_turn s
  | Main => main_turn s
  end.

(** The system after the turns of a schedule. *)
Definition run (schedule : list turn) (s : system) : system :=
  foldl take_turn s schedule.

(** *** publish *)

(** [for x in model.serialized: if x.get("isToggled"): l.append(x["name"])] *)
Fixpoint toggled_names (records : list Item) : list string :=
  match records with
  | [] => []
  | r :: records' =>
      if isToggled r then name r :: toggled_names records'
      else toggled_names records'
  end.

Definition newline : string := String (Ascii.ascii_of_nat 10) EmptyString.

(** [for n in names: message += "\n  - %s" % n] *)
Fixpoint bullets (message : string) (names : list string) : string :=
  match names with
  | [] => message
  | n :: names' => bullets (message +:+ newline +:+ "  - " +:+ n) names'
  end.

Definition selection_message (context plugins : list string) : string :=
  let message := bullets "Instances:" context in
  let message := message +:+ newline +:+ newline +:+ "Plug-ins:" in
  let message := bullets message plugins in
  message +:+ newline.

(** Truth value of a list. *)
Definition truthy {A} (l : list A) : bool :=
  match l with [] => false | _ => true end.

(** [response.get("message") or "An error occurred"] *)
Definition message_or_default (r : response) : string :=
  match message r with
  | Some m => if bool_decide (m = "") then "An error occurred" else m
  | None => "An error occurred"
  end.

(** [Controller.publish]; [submission] is what [rest.request("POST",
    "/state", ..)] does. *)
Definition publish (submission : reply) : M unit :=
  instances ← gets (λ c, serialized (_instance_model c));
  let context := toggled_names instances in
  plugin_records ← gets (λ c, serialized (_plugin_model c));
  let plugins := toggled_names plugin_records in
  if negb (truthy context && truthy plugins) then
    let msg := "Must specify an instance and plug-in" in
    emit_finished;;
    emit (Error msg);;
    emit (LogError msg)
  else
    emit (Info (selection_message context plugins));;
    submitted ← try_except
      (emit (Request "POST" "/state" (Some (State context plugins)));;
       match submission with
       | Fails e => raise e
       | Replies response =>
           if bool_decide (status_code response ≠ 200) then
             raise (Exception (message_or_default response))
           else mret true
       end)
      (λ e,
         match getattr_msg e with
         | None => raise (AttributeError "msg")
         | Some msg =>
             emit (Error msg);;
             emit (LogError msg);;
             mret false
         end);
    if submitted : bool then
      modify (set_is_running true);;
      start
    else mret tt.

(** *** init *)

(** Modelled from the spec: the constructor [model.Item] of the absent
    [model.py], called with the keys of a host record as keyword
    arguments, turns the record into an item with those attributes; a record is given here with a value for each attribute. *)
Definition Item_of (data : Item) : Item := data.

(** [Controller.init]; the arguments are the decoded replies to
    [GET /instances], [GET /plugins] and [GET /application]. *)
Definition init (instances plugins : list Item) (system : string) : M unit :=
  emit (Request "POST" "/session" None);;
  emit (Request "GET" "/instances" None);;
  emit (Request "GET" "/plugins" None);;
  emit (Request "GET" "/application" None);;
  modify (set_system system);;
  for_each instances (λ data,
    let item := Item_of data in
    let item :=
      setattr item
        (IsToggled (match model.publish item with
                    | Some true | None => true
                    | Some false => false
                    end)) in
    modify (λ c, set_model Instances (addItem (_instance_model c) item) c);;
    mret Next);;
  for_each plugins (λ data,
    if bool_decide (active data = Some false) then mret Next
    else
      let item := Item_of data in
      modify (λ c, set_model Plugins (addItem (_plugin_model c) item) c);;
      mret Next).

End controller.

(** ** app.py: the close policy of the window *)

Module app.

(** [event.type()]: a close request, or anything else. *)
Inductive event_type := Close | Other.

(** [QtCore.Qt.ShiftModifier] *)
Definition ShiftModifier : Z := 0x02000000.

(** What handling an event does: lines printed, signals sent to the host
    through [controller.host.emit], and the verdict put on the event. *)
Inductive action :=
| Print (line : string)
| HostEmit (signal : string)
| Accept
| Ignore.

(** [Window.event], up to the hand-over to the base class.  [modifiers]
    is [self.parent.queryKeyboardModifiers()] and [states] is
    [self.parent.controller.states], the names of the active states. *)
Definition event (modifiers : Z) (states : list string) (type : event_type)
  : list action :=
  match type with
  | Close =>
      let shift_pressed := Z.land ShiftModifier modifiers in
      if bool_decide (shift_pressed ≠ 0) then
        [Print "Force quitted.."; HostEmit "pyblishQmlCloseForced"; Accept]
      else if existsb (λ state, bool_decide (state ∈ states))
                      ["ready"; "finished"] then
        [HostEmit "pyblishQmlClose"; Accept]
      else
        [Print "Not ready, hold SHIFT to force an exit"; Ignore]
  | Other => []
  end.

(** *** The clients of the application *)

Section Clients.
Context {time : Type}.

(** [Application.clients], a dict from port to [{"lastSeen": t}], and
    [Application.current_client]. *)
Record Application := {
  clients : gmap Z time;
  current_client : option Z
}.

(** The two attributes as [Application.__init__] leaves them. *)
Definition no_clients : Application :=
  {| clients := ∅; current_client := None |}.

(** [Application.register_client]; [now] is [time.time()]. *)
Definition register_client (port : Z) (now : time) (a : Application)
  : Application :=
  {| current_client := Some port;
     clients := <[port := now]> (clients a) |}.

(** [Application.deregister_client]: [self.clients.pop(port)] raises
    [KeyError] (here [None]) when the port is not a key. *)
Definition deregister_client (port : Z) (a : Application)
  : option Application :=
  match clients a !! port with
  | Some _ =>
      Some {| current_client := current_client a;
              clients := delete port (clients a) |}
  | None => None
  end.

End Clients.

(** *** Commands from the host *)

Section Listen.
Context {value : Type}.

(** The payload of one line read from the parent channel. *)
Record payload := {
  name : string;
  args : option (list value)
}.

(** The table of [_listen]: command name to signal name. *)
Definition signals : list (string * string) :=
  [("show", "shown"); ("hide", "hidden"); ("resize", "resized");
   ("quit", "quitted"); ("publish", "published");
   ("validate", "validated")].

(** The signals of [Application] with the number of arguments each is
    declared with. *)
Definition arities : list (string * nat) :=
  [("shown", 1%nat); ("hidden", 0%nat); ("quitted", 0%nat);
   ("resized", 2%nat); ("published", 0%nat); ("validated", 0%nat)].

(** [dict.get(key)] on a dict literal given by its pairs. *)
Fixpoint get {V} (table : list (string * V)) (key : string) : option V :=
  match table with
  | [] => None
  | (k, v) :: table' => if bool_decide (k = key) then Some v
                        else get table' key
  end.

(** What one round of [_listen] does with a payload. *)
Inductive reaction :=
| Unavailable (line : string)                  (* printed *)
| Emitted (signal : string) (arguments : list value)
                                               (* [getattr(self, signal).emit(..)] *)
| Traceback.                                   (* [traceback.print_exc()] *)

(** The body of the loop of [_listen], from the payload on.  The emission
    is inside [try], and raises when the number of arguments is not the
    one the signal is declared with: the handler then prints the
    traceback and nothing has been emitted. *)
Definition _listen (p : payload) : reaction :=
  match get signals (name p) with
  | None => Unavailable ("'" +:+ name p +:+ "' was unavailable.")
  | Some signal =>
      let arguments := match args p with Some l => l | None => [] end in
      match get arities signal with
      | Some n =>
          if bool_decide (length arguments = n) then Emitted signal arguments
          else Traceback
      | None => Traceback
      end
  end.

End Listen.

End app.

Import model rest controller.

(** ** Closed forms used in the statements *)

(** What marking an item as the current one does to it. *)
Definition mark (err : bool) (item : Item) : Item :=
  setattr (setattr (setattr item (IsProcessing true)) (CurrentProgress 1))
          (if err then HasError true else Succeeded true).

(** What [update_instances] does to one instance. *)
Definition fold_instance (data : step_result) (item : Item) : Item :=
  if decide (instance data = Some (name item)) then mark (error data) item
  else setattr item (IsProcessing false).

(** What [update_plugins] does to one plugin it marks or passes over. *)
Definition fold_plugin (data : step_result) (item : Item) : Item :=
  if decide (plugin data = Some (name item)) then mark (error data) item
  else setattr item (IsProcessing false).

(** What [reset_status] does to one item. *)
Definition reset_progress (item : Item) : Item :=
  setattr (setattr item (IsProcessing false)) (CurrentProgress 0).

(** What [reset_state] does to one item. *)
Definition clear_results (item : Item) : Item :=
  setattr (setattr item (HasError false)) (Succeeded false).

(** What [init] does to one instance record. *)
Definition default_toggle (data : Item) : Item :=
  setattr data (IsToggled (match model.publish data with
                           | Some true | None => true
                           | Some false => false
                           end)).

(** The result names this plugin and the plugin is an extractor. *)
Definition halting (data : step_result) (item : Item) : Prop :=
  plugin data = Some (name item) ∧ type item = "Extractor".

Definition names (data : step_result) (item : Item) : bool :=
  bool_decide (plugin data = Some (name item)).

(** The halt rule applies to this result in this state. *)
Definition halts (data : step_result) (c : Controller) : Prop :=
  _has_errors c = true ∧ ∃ item, item ∈ _plugin_model c ∧ halting data item.

(** [_has_errors] after a pass of [update_plugins] that did not halt. *)
Definition errors_after (data : step_result) (items : list Item) (h : bool)
  : bool :=
  h || (error data && existsb (names data) items).

(** The body of the loop of [update_plugins], on its own. *)
Definition update_plugin (data : step_result) : Z * Item → M flow :=
  λ '(index, item),
      let current_item := plugin data in
      if decide (current_item = Some (name item)) then
        let mark :=
          setData Plugins index (IsProcessing true);;
          setData Plugins index (CurrentProgress 1);;
          (if error data then
             setData Plugins index (HasError true);;
             modify (set_has_errors true)
           else setData Plugins index (Succeeded true));;
          mret Next in
        has_errors ← gets _has_errors;
        if has_errors : bool then
          if bool_decide (type item = "Extractor") then
            emit (Info "Stopped due to failed vaildation");;
            modify (set_is_running false);;
            mret Return
          else mark
        else mark
      else
        setData Plugins index (IsProcessing false);;
        mret Next.

(** The items of a collection that are being processed. *)
Definition processing (items : list Item) : list Item :=
  filter (λ item, isProcessing item = true) items.

(** Counting events of one kind in a trace. *)
Definition count (p : event → bool) (t : list event) : nat :=
  length (List.filter p t).

Definition is_request (e : event) : bool :=
  match e with Request _ _ _ => true | _ => false end.

Definition is_next_request (e : event) : bool :=
  match e with
  | Request verb endpoint _ =>
      bool_decide (verb = "POST") && bool_decide (endpoint = "/next")
  | _ => false
  end.

Definition is_error (e : event) : bool :=
  match e with Error _ => true | _ => false end.


Definition is_thread_start (e : event) : bool :=
  match e with ThreadStart => true | _ => false end.

(** The fields of an item that no fold-in writes. *)
Definition same_identity (old new : Item) : Prop :=
  name new = name old ∧ type new = type old
  ∧ optional new = optional old ∧ model.publish new = model.publish old
  ∧ active new = active old ∧ isToggled new = isToggled old.


Definition is_state_request (e : event) : bool :=
  match e with
  | Request verb endpoint _ =>
      bool_decide (verb = "POST") && bool_decide (endpoint = "/state")
  | _ => false
  end.








(** The host took the submission: a reply of status 200. *)
Definition is_accepted (submission : reply) : bool :=
  match submission with
  | Replies r => bool_decide (status_code r = 200)
  | Fails _ => false
  end.

(** Something is toggled in both collections. *)
Definition has_selection (c : Controller) : bool :=
  truthy (toggled_names (_instance_model c))
  && truthy (toggled_names (_plugin_model c)).

(** The item at [index] with its toggle flipped. *)
Definition flipped (item : Item) : Item :=
  setattr item (IsToggled (negb (isToggled item))).

(** ** Sample data *)

(** An item as the host describes it before any run. *)
Definition item (n t : string) (opt toggled : bool) : Item :=
  {| name := n; type := t; optional := opt;
     model.publish := None; active := None;
     isToggled := toggled; isProcessing := false; currentProgress := 0;
     hasError := false; succeeded := false |}.

(** Instances [A] (selected) and [B] (not selected); an optional extractor
    [E] and a mandatory validator [V], both selected. *)
Definition studio : Controller :=
  {| _instance_model := [item "A" "Instance" true true;
                         item "B" "Instance" true false];
     _plugin_model := [item "E" "Extractor" true true;
                       item "V" "Validator" false true];
     _system := ""; _has_errors := false; _is_running := false;
     trace := [] |}.

(** The same with nothing selected among the instances. *)
Definition studio_unselected : Controller :=
  set_model Instances [item "A" "Instance" true false;
                       item "B" "Instance" true false] studio.

(** The same with a mandatory, selected instance [M] in front. *)
Definition studio_mandatory : Controller :=
  set_model Instances [item "M" "Instance" false true;
                       item "A" "Instance" true true] studio.

Definition studio_running : Controller := set_is_running true studio.

Definition step (i p : option string) (e : bool) : step_result :=
  {| instance := i; plugin := p; error := e |}.

Definition ok (data : step_result) : response :=
  {| status_code := 200; message := None; json := data |}.

Definition accepted : response := ok (step None None false).

Definition rejected : response :=
  {| status_code := 500; message := Some "Host refused";
     json := step None None false |}.

(** A run in which the validator [V] has just failed. *)
Definition studio_failed : Controller :=
  (process_handler (step None (Some "V") true) studio_running).2.





(** The instance [A] has just failed, progress bars still up. *)
Definition studio_marked : Controller :=
  (process_handler (step (Some "A") None true) studio).2.

(** ** Running the monad *)

Ltac run := unfold mbind, M_bind, mret, M_ret, emit, modify, gets, raise, try_except.

Section Models.
Context (w : which).

Lemma get_set_model items c : get_model w (set_model w items c) = items.
Proof. by destruct w. Qed.

Lemma set_set_model items items' c :
  set_model w items' (set_model w items c) = set_model w items' c.
Proof. by destruct w. Qed.

Lemma set_get_model c : set_model w (get_model w c) c = c.
Proof. by destruct w, c. Qed.
End Models.

Lemma itemFromIndex_middle (pre suf : list Item) item :
  model.itemFromIndex (pre ++ item :: suf) (Z.of_nat (length pre)) = Returned item.
Proof.
  unfold model.itemFromIndex.
  rewrite length_app, Nat2Z.id, list_lookup_middle by done. simpl.
  replace (0 <=? Z.of_nat (length pre)) with true by (symmetry; apply Z.leb_le; lia).
  replace (Z.of_nat (length pre) <? Z.of_nat (length pre + S (length suf)))
    with true by (symmetry; apply Z.ltb_lt; lia).
  done.
Qed.

Lemma setData_middle w (pre suf : list Item) item a c :
  get_model w c = pre ++ item :: suf →
  clears_mandatory item a = false →
  setData w (Z.of_nat (length pre)) a c
  = (Returned tt, set_model w (pre ++ setattr item a :: suf) c).
Proof.
  intros Hm Ha. unfold setData, model.setData.
  rewrite Hm, itemFromIndex_middle, Ha, Nat2Z.id.
  rewrite insert_app_r_alt, Nat.sub_diag by lia. done.
Qed.

Lemma for_each_items w (f : Item → Item) (body : Z * Item → M flow) :
  (∀ pre item suf c,
     get_model w c = pre ++ item :: suf →
     body (Z.of_nat (length pre), item) c
     = (Returned Next, set_model w (pre ++ f item :: suf) c)) →
  ∀ suf pre c,
    get_model w c = pre ++ suf →
    for_each (enumerate_from (length pre) suf) body c
    = (Returned tt, set_model w (pre ++ (f <$> suf)) c).
Proof.
  intros Hbody suf. induction suf as [|item suf IH]; intros pre c Hm; simpl.
  - run. by rewrite <- Hm, set_get_model.
  - run. rewrite (Hbody _ _ _ _ Hm).
    replace (S (length pre)) with (length (pre ++ [f item]))
      by (rewrite length_app; simpl; lia).
    rewrite IH by (by rewrite get_set_model, <- app_assoc).
    by rewrite set_set_model, <- app_assoc.
Qed.

Lemma for_each_model w (f : Item → Item) (body : Z * Item → M flow) c :
  (∀ pre item suf c,
     get_model w c = pre ++ item :: suf →
     body (Z.of_nat (length pre), item) c
     = (Returned Next, set_model w (pre ++ f item :: suf) c)) →
  (items ← gets (get_model w); for_each (enumerate items) body) c
  = (Returned tt, set_model w (f <$> get_model w c) c).
Proof.
  intros Hbody. run. unfold enumerate.
  apply (for_each_items w f body Hbody (get_model w c) [] c eq_refl).
Qed.

(** The two nested loops of the resets. *)
Lemma for_both_models (f : Item → Item) (body : which → Z * Item → M flow) c :
  (∀ w pre item suf c,
     get_model w c = pre ++ item :: suf →
     body w (Z.of_nat (length pre), item) c
     = (Returned Next, set_model w (pre ++ f item :: suf) c)) →
  for_each [Instances; Plugins] (λ model_,
    items ← gets (get_model model_);
    for_each (enumerate items) (body model_);;
    mret Next) c
  = (Returned tt,
     set_model Plugins (f <$> _plugin_model c)
       (set_model Instances (f <$> _instance_model c) c)).
Proof.
  intros Hbody.
  change (for_each [Instances; Plugins] (λ model_,
            (items ← gets (get_model model_);
             for_each (enumerate items) (body model_));;
            mret Next) c = (Returned tt,
     set_model Plugins (f <$> _plugin_model c)
       (set_model Instances (f <$> _instance_model c) c))).
  unfold for_each at 1.
  unfold mbind at 1, M_bind at 1. unfold mbind at 1, M_bind at 1.
  rewrite (for_each_model Instances f (body Instances) c (Hbody Instances)).
  unfold mret at 1, M_ret at 1.
  unfold mbind at 1, M_bind at 1. unfold mbind at 1, M_bind at 1.
  rewrite (for_each_model Plugins f (body Plugins) _ (Hbody Plugins)).
  done.
Qed.

Lemma reset_state_eq c :
  reset_state c
  = (Returned tt,
     set_model Plugins (clear_results <$> _plugin_model c)
       (set_model Instances (clear_results <$> _instance_model c) c)).
Proof.
  unfold reset_state. apply (for_both_models clear_results).
  intros w pre item suf c' Hm. run.
  rewrite (setData_middle w pre suf item (HasError false) c' Hm eq_refl).
  rewrite (setData_middle w pre suf _ (Succeeded false) _
             (get_set_model w _ _) eq_refl).
  by rewrite set_set_model.
Qed.

Ltac set_data :=
  match goal with
  | |- context [setData ?w (Z.of_nat (length ?pre)) ?a ?c] =>
      rewrite (setData_middle w pre _ _ a c
                 ltac:(first [eassumption | apply get_set_model]) eq_refl),
        ?set_set_model
  end.

Lemma reset_status_eq c :
  reset_status c
  = (Returned tt,
     set_model Plugins (reset_progress <$> _plugin_model c)
       (set_model Instances (reset_progress <$> _instance_model c)
          (set_is_running false
             (set_has_errors false
                (record (Request "POST" "/session" None) c))))).
Proof.
  unfold reset_status.
  unfold mbind at 1, M_bind at 1, emit at 1, modify at 1.
  unfold mbind at 1, M_bind at 1, modify at 1.
  unfold mbind at 1, M_bind at 1, modify at 1.
  rewrite (for_both_models reset_progress); [done|].
  intros w pre item suf c' Hm. run. by do 2 set_data.
Qed.

Lemma update_instances_eq data c :
  update_instances data c
  = (Returned tt,
     set_model Instances (fold_instance data <$> _instance_model c) c).
Proof.
  unfold update_instances.
  apply (for_each_model Instances (fold_instance data)).
  intros pre item suf c' Hm. unfold fold_instance, mark.
  destruct (decide _); run.
  - do 2 set_data. by destruct (error data); set_data.
  - by set_data.
Qed.

Lemma update_plugins_unfold data :
  update_plugins data
  = (items ← gets (get_model Plugins);
     for_each (enumerate items) (update_plugin data)).
Proof. reflexivity. Qed.

Lemma set_has_errors_id c : set_has_errors (_has_errors c) c = c.
Proof. by destruct c. Qed.

Lemma update_plugin_other data pre item suf c :
  get_model Plugins c = pre ++ item :: suf →
  plugin data ≠ Some (name item) →
  update_plugin data (Z.of_nat (length pre), item) c
  = (Returned Next,
     set_model Plugins (pre ++ fold_plugin data item :: suf) c).
Proof.
  intros Hm Hn. unfold update_plugin, fold_plugin.
  destruct (decide _); [done|]. run. by set_data.
Qed.

Lemma update_plugin_mark data pre item suf c :
  get_model Plugins c = pre ++ item :: suf →
  plugin data = Some (name item) →
  ¬ (_has_errors c = true ∧ type item = "Extractor") →
  update_plugin data (Z.of_nat (length pre), item) c
  = (Returned Next,
     set_has_errors (_has_errors c || error data)
       (set_model Plugins (pre ++ fold_plugin data item :: suf) c)).
Proof.
  intros Hm Hn Hh. unfold update_plugin, fold_plugin, mark.
  destruct (decide _); [|done].
  assert (∀ c', get_model Plugins c' = pre ++ item :: suf →
    (setData Plugins (Z.of_nat (length pre)) (IsProcessing true);;
     setData Plugins (Z.of_nat (length pre)) (CurrentProgress 1);;
     (if error data then
        setData Plugins (Z.of_nat (length pre)) (HasError true);;
        modify (set_has_errors true)
      else setData Plugins (Z.of_nat (length pre)) (Succeeded true));;
     mret Next) c'
    = (Returned Next,
       set_has_errors (_has_errors c' || error data)
         (set_model Plugins
            (pre ++ setattr (setattr (setattr item (IsProcessing true))
                               (CurrentProgress 1))
                      (if error data then HasError true else Succeeded true)
                 :: suf) c'))) as Hmark.
  { intros c' Hm'. run. do 2 set_data. destruct (error data); set_data.
    - rewrite orb_true_r. by destruct c'.
    - rewrite orb_false_r. by destruct c'. }
  unfold mbind at 1, M_bind at 1, gets at 1.
  destruct (_has_errors c) eqn:He.
  - case_bool_decide as Ht; [destruct Hh; done|].
    rewrite (Hmark c Hm). by rewrite He.
  - rewrite (Hmark c Hm). by rewrite He.
Qed.

Lemma update_plugin_halt data pre item suf c :
  get_model Plugins c = pre ++ item :: suf →
  _has_errors c = true →
  halting data item →
  update_plugin data (Z.of_nat (length pre), item) c
  = (Returned Return,
     set_is_running false
       (record (Info "Stopped due to failed vaildation") c)).
Proof.
  intros Hm He [Hn Ht]. unfold update_plugin.
  destruct (decide _); [|done]. run. rewrite He.
  by rewrite bool_decide_eq_true_2.
Qed.

Lemma length_snoc {A} (l : list A) x : S (length l) = length (l ++ [x]).
Proof. rewrite length_app. simpl. lia. Qed.

Lemma update_plugins_halts data item suf mid :
  ∀ pre c,
    get_model Plugins c = pre ++ mid ++ item :: suf →
    _has_errors c = true →
    Forall (λ x, ¬ halting data x) mid →
    halting data item →
    for_each (enumerate_from (length pre) (mid ++ item :: suf))
      (update_plugin data) c
    = (Returned tt,
       set_is_running false
         (record (Info "Stopped due to failed vaildation")
            (set_model Plugins
               (pre ++ (fold_plugin data <$> mid) ++ item :: suf) c))).
Proof.
  induction mid as [|x mid IH]; intros pre c Hm He Hmid Hitem.
  - cbn [app fmap list_fmap enumerate_from for_each].
    unfold mbind, M_bind.
    rewrite (update_plugin_halt data pre item suf c Hm He Hitem).
    unfold mret, M_ret. simpl in Hm. by rewrite <- Hm, set_get_model.
  - apply Forall_cons in Hmid as [Hx Hmid].
    cbn [app fmap list_fmap enumerate_from for_each].
    unfold mbind, M_bind. rewrite (length_snoc pre (fold_plugin data x)).
    destruct (decide (plugin data = Some (name x))) as [Hn|Hn].
    + rewrite (update_plugin_mark data pre x (mid ++ item :: suf) c Hm Hn)
        by (intros [_ Ht]; by apply Hx).
      rewrite IH;
        [|by (simpl; rewrite <- app_assoc)|by (simpl; rewrite He)|done..].
      rewrite He. simpl. rewrite <- app_assoc. simpl.
      destruct c; simpl in *; by subst.
    + rewrite (update_plugin_other data pre x (mid ++ item :: suf) c Hm Hn).
      rewrite IH; [|by (rewrite get_set_model, <- app_assoc)|done..].
      by rewrite set_set_model, <- app_assoc.
Qed.

Lemma update_plugins_runs data suf :
  ∀ pre c,
    get_model Plugins c = pre ++ suf →
    Forall (λ x, ¬ halting data x) suf
    ∨ (_has_errors c = false ∧ NoDup (name <$> suf)) →
    for_each (enumerate_from (length pre) suf) (update_plugin data) c
    = (Returned tt,
       set_has_errors (errors_after data suf (_has_errors c))
         (set_model Plugins (pre ++ (fold_plugin data <$> suf)) c)).
Proof.
  induction suf as [|x suf IH]; intros pre c Hm Hinv.
  - cbn [fmap list_fmap enumerate_from for_each]. unfold mret, M_ret.
    rewrite ?fmap_nil, <- Hm, set_get_model.
    unfold errors_after. cbn [existsb]. rewrite andb_false_r, orb_false_r.
    by rewrite set_has_errors_id.
  - cbn [fmap list_fmap enumerate_from for_each].
    unfold mbind, M_bind. rewrite (length_snoc pre (fold_plugin data x)).
    destruct (decide (plugin data = Some (name x))) as [Hn|Hn].
    + rewrite (update_plugin_mark data pre x suf c Hm Hn).
      2:{ intros [He Ht]. destruct Hinv as [Hx|[He' _]]; [|congruence].
          apply Forall_cons in Hx as [Hx _]. by apply Hx. }
      assert (Forall (λ y, ¬ halting data y) suf
              ∨ (_has_errors c || error data = false
                 ∧ NoDup (name <$> suf))) as Hinv'.
      { destruct Hinv as [Hx|[He Hnd]].
        - left. by apply Forall_cons in Hx as [_ Hx].
        - left. apply NoDup_cons in Hnd as [Hnot _].
          apply Forall_forall. intros y Hy [Hny _]. apply Hnot.
          assert (name x = name y) as -> by congruence.
          apply list_elem_of_fmap. eauto. }
      rewrite IH; [|by (simpl; rewrite <- app_assoc)|by simpl].
      simpl. rewrite <- app_assoc. simpl.
      unfold errors_after, names. simpl.
      rewrite (bool_decide_eq_true_2 _ Hn).
      destruct c, (error data); simpl in *;
        rewrite ?orb_true_r, ?orb_false_r, ?andb_true_r, ?orb_true_l; done.
    + rewrite (update_plugin_other data pre x suf c Hm Hn).
      assert (Forall (λ y, ¬ halting data y) suf
              ∨ (_has_errors c = false ∧ NoDup (name <$> suf))) as Hinv'.
      { destruct Hinv as [Hx|[He Hnd]].
        - left. by apply Forall_cons in Hx as [_ Hx].
        - right. split; [done|]. by apply NoDup_cons in Hnd as [_ ?]. }
      rewrite IH; [|by (rewrite get_set_model, <- app_assoc)|by destruct c].
      rewrite set_set_model, <- app_assoc. simpl.
      unfold errors_after, names. simpl.
      rewrite (bool_decide_eq_false_2 _ Hn). simpl.
      by destruct c.
Qed.

(** ** Emitting [finished] *)

Lemma emit_finished_eq c :
  emit_finished c
  = (Returned tt,
     {| _instance_model := reset_progress <$> _instance_model c;
        _plugin_model := reset_progress <$> _plugin_model c;
        _system := _system c; _has_errors := false; _is_running := false;
        trace := trace c ++ [Finished; Request "POST" "/session" None] |}).
Proof.
  unfold emit_finished, finished_handler. run.
  rewrite reset_status_eq. simpl. by rewrite <- app_assoc.
Qed.

(** C10: every emission of [finished] runs [reset_status], whose whole
    effect is one [POST /session] request, both flags cleared, and on every
    item of both collections [isProcessing = false] and
    [currentProgress = 0], the other fields of the item being kept. *)
Theorem finished_resets_status c :
  emit_finished c
  = (Returned tt,
     {| _instance_model := reset_progress <$> _instance_model c;
        _plugin_model := reset_progress <$> _plugin_model c;
        _system := _system c; _has_errors := false; _is_running := false;
        trace := trace c ++ [Finished; Request "POST" "/session" None] |})
  ∧ ∀ item,
      isProcessing (reset_progress item) = false
      ∧ currentProgress (reset_progress item) = 0
      ∧ isToggled (reset_progress item) = isToggled item
      ∧ hasError (reset_progress item) = hasError item
      ∧ succeeded (reset_progress item) = succeeded item
      ∧ name (reset_progress item) = name item
      ∧ type (reset_progress item) = type item
      ∧ optional (reset_progress item) = optional item.
Proof. split; [apply emit_finished_eq|]. intros item. by repeat split. Qed.

(** ** publish *)

Lemma publish_unselected submission c :
  truthy (toggled_names (_instance_model c))
  && truthy (toggled_names (_plugin_model c)) = false →
  publish submission c
  = (Returned tt,
     {| _instance_model := reset_progress <$> _instance_model c;
        _plugin_model := reset_progress <$> _plugin_model c;
        _system := _system c; _has_errors := false; _is_running := false;
        trace := trace c ++ [Finished; Request "POST" "/session" None;
                             Error "Must specify an instance and plug-in";
                             LogError "Must specify an instance and plug-in"]
     |}).
Proof.
  intros Hsel. unfold publish, serialized.
  unfold mbind at 1, M_bind at 1, gets at 1.
  unfold mbind at 1, M_bind at 1, gets at 1.
  rewrite Hsel. cbn [negb].
  unfold mbind at 1, M_bind at 1. rewrite emit_finished_eq.
  run. unfold record. simpl. by rewrite <- !app_assoc.
Qed.

(** C3, amended: with no toggled instance or no toggled plugin, [publish]
    submits nothing and starts no loop; it emits [finished] once and
    [error] once (in that order), and the one host request made is the
    [POST /session] of the status reset that [finished] triggers. *)
Theorem publish_without_selection submission c :
  toggled_names (_instance_model c) = [] ∨
  toggled_names (_plugin_model c) = [] →
  ∃ c',
    publish submission c = (Returned tt, c')
    ∧ trace c' = trace c ++ [Finished; Request "POST" "/session" None;
                             Error "Must specify an instance and plug-in";
                             LogError "Must specify an instance and plug-in"]
    ∧ _is_running c' = false.
Proof.
  intros Hsel. eexists. split; [apply publish_unselected|done].
  destruct Hsel as [-> | ->]; [done|]. apply andb_false_r.
Qed.

Lemma publish_without_selection_witness :
  ∃ c',
    publish (Replies accepted) studio_unselected = (Returned tt, c')
    ∧ trace c' = trace studio_unselected
                 ++ [Finished; Request "POST" "/session" None;
                     Error "Must specify an instance and plug-in";
                     LogError "Must specify an instance and plug-in"]
    ∧ _is_running c' = false.
Proof.
  apply (publish_without_selection (Replies accepted) studio_unselected).
  left. reflexivity.
Defined.

(** C3, as stated, fails: nothing is selected among the instances, and
    [publish] still reaches the host, once, through the status reset. *)
Lemma publish_without_selection_reaches_host :
  toggled_names (_instance_model studio_unselected) = []
  ∧ count is_request
      (trace (publish (Replies accepted) studio_unselected).2) = 1%nat
  ∧ Request "POST" "/session" None
    ∈ trace (publish (Replies accepted) studio_unselected).2.
Proof.
  split; [done|]. split; [done|].
  vm_compute. apply list_elem_of_further, list_elem_of_here.
Qed.

Lemma truthy_true {A} (l : list A) : l ≠ [] → truthy l = true.
Proof. by destruct l. Qed.

Lemma publish_accepted_eq c response :
  toggled_names (_instance_model c) ≠ [] →
  toggled_names (_plugin_model c) ≠ [] →
  status_code response = 200 →
  publish (Replies response) c
  = (Returned tt,
     {| _instance_model := clear_results <$> _instance_model c;
        _plugin_model := clear_results <$> _plugin_model c;
        _system := _system c; _has_errors := _has_errors c;
        _is_running := true;
        trace := trace c
                 ++ [Info (selection_message
                             (toggled_names (_instance_model c))
                             (toggled_names (_plugin_model c)));
                     Request "POST" "/state"
                       (Some (State (toggled_names (_instance_model c))
                                    (toggled_names (_plugin_model c))));
                     ThreadStart] |}).
Proof.
  intros Hi Hp Hs. unfold publish, serialized.
  unfold mbind at 1, M_bind at 1, gets at 1.
  unfold mbind at 1, M_bind at 1, gets at 1.
  rewrite (truthy_true _ Hi), (truthy_true _ Hp). cbn [andb negb].
  rewrite (bool_decide_eq_false_2 (status_code response ≠ 200)) by tauto.
  unfold start. run. rewrite reset_state_eq.
  unfold record. simpl. by rewrite <- !app_assoc.
Qed.

(** C2, amended: when the host accepts the submission, [publish] sets
    [isRunning] and, before the worker is started, clears the sticky
    [hasError] and [succeeded] of every item of both collections; it is
    [isProcessing], [currentProgress] and [isToggled] that are left as they
    were. *)
Theorem publish_accepted_clears_results c response :
  toggled_names (_instance_model c) ≠ [] →
  toggled_names (_plugin_model c) ≠ [] →
  status_code response = 200 →
  (∃ c',
     publish (Replies response) c = (Returned tt, c')
     ∧ _is_running c' = true
     ∧ _instance_model c' = clear_results <$> _instance_model c
     ∧ _plugin_model c' = clear_results <$> _plugin_model c
     ∧ ∃ message state,
         trace c' = trace c ++ [Info message;
                                Request "POST" "/state" (Some state);
                                ThreadStart])
  ∧ ∀ item,
      hasError (clear_results item) = false
      ∧ succeeded (clear_results item) = false
      ∧ isProcessing (clear_results item) = isProcessing item
      ∧ currentProgress (clear_results item) = currentProgress item
      ∧ isToggled (clear_results item) = isToggled item.
Proof.
  intros Hi Hp Hs. split; [|by intros item].
  eexists. split; [by apply publish_accepted_eq|]. simpl. eauto 10.
Qed.

Lemma publish_accepted_clears_results_witness :
  (∃ c',
     publish (Replies accepted) studio_marked = (Returned tt, c')
     ∧ _is_running c' = true
     ∧ _instance_model c' = clear_results <$> _instance_model studio_marked
     ∧ _plugin_model c' = clear_results <$> _plugin_model studio_marked
     ∧ ∃ message state,
         trace c' = trace studio_marked
                    ++ [Info message; Request "POST" "/state" (Some state);
                        ThreadStart])
  ∧ ∀ item,
      hasError (clear_results item) = false
      ∧ succeeded (clear_results item) = false
      ∧ isProcessing (clear_results item) = isProcessing item
      ∧ currentProgress (clear_results item) = currentProgress item
      ∧ isToggled (clear_results item) = isToggled item.
Proof.
  apply (publish_accepted_clears_results studio_marked accepted).
  - vm_compute. discriminate.
  - vm_compute. discriminate.
  - reflexivity.
Defined.

(** C2, as stated, fails: the instance [A] enters [publish] with
    [hasError] set and its progress bar up; when the worker is started its
    [hasError] has been cleared and its progress has not been reset. *)
Lemma publish_accepted_keeps_progress :
  ∃ before after rest rest',
    _instance_model studio_marked = before :: rest
    ∧ _instance_model (publish (Replies accepted) studio_marked).2
      = after :: rest'
    ∧ name before = "A" ∧ name after = "A"
    ∧ hasError before = true ∧ hasError after = false
    ∧ isProcessing before = true ∧ isProcessing after = true
    ∧ currentProgress before = 1 ∧ currentProgress after = 1.
Proof. do 4 eexists. by vm_compute. Qed.

Lemma publish_rejected_eq c response :
  toggled_names (_instance_model c) ≠ [] →
  toggled_names (_plugin_model c) ≠ [] →
  status_code response ≠ 200 →
  publish (Replies response) c
  = (Raised (AttributeError "msg"),
     record (Request "POST" "/state"
               (Some (State (toggled_names (_instance_model c))
                            (toggled_names (_plugin_model c)))))
       (record (Info (selection_message
                        (toggled_names (_instance_model c))
                        (toggled_names (_plugin_model c)))) c)).
Proof.
  intros Hi Hp Hs. unfold publish, serialized.
  unfold mbind at 1, M_bind at 1, gets at 1.
  unfold mbind at 1, M_bind at 1, gets at 1.
  rewrite (truthy_true _ Hi), (truthy_true _ Hp). cbn [andb negb].
  rewrite (bool_decide_eq_true_2 (status_code response ≠ 200)) by done.
  by run.
Qed.

(** C4: a submission the host refuses.  The handler of [publish] reads
    [e.msg] on the [Exception] it has just raised, which has no such
    attribute: an [AttributeError] leaves [publish] and no [error]
    notification is emitted.  The loop is not started and [isRunning]
    stays false. *)
Theorem publish_rejected_raises :
  (publish (Replies rejected) studio).1 = Raised (AttributeError "msg")
  ∧ count is_error (trace (publish (Replies rejected) studio).2) = 0%nat
  ∧ count is_thread_start (trace (publish (Replies rejected) studio).2) = 0%nat
  ∧ _is_running (publish (Replies rejected) studio).2 = false.
Proof. by vm_compute. Qed.

(** ** Toggling *)

Lemma toggle_item_running w index c :
  _is_running c = true →
  _toggle_item w index c
  = (Returned tt, record (Error "Cannot untick while publishing") c).
Proof. intros Hr. unfold _toggle_item. run. by rewrite Hr. Qed.

Lemma togglePlugin_mandatory index item c :
  model.itemFromIndex (_plugin_model c) index = Returned item →
  optional item = false →
  togglePlugin index c
  = (Returned tt, record (Error "Plug-in is mandatory") c).
Proof.
  intros Hi Ho. unfold togglePlugin, itemFromIndex. run. simpl.
  by rewrite Hi, Ho.
Qed.

(** C5, amended: while [isRunning] is true a toggle changes no item and
    is answered by one error notification, which is "Cannot untick while
    publishing" for [toggleInstance] and for [togglePlugin] on an optional
    plugin, and "Plug-in is mandatory" for [togglePlugin] on a plugin that
    is not optional. *)
Theorem toggle_while_running c index :
  _is_running c = true →
  toggleInstance index c
  = (Returned tt, record (Error "Cannot untick while publishing") c)
  ∧ (∀ item,
       model.itemFromIndex (_plugin_model c) index = Returned item →
       togglePlugin index c
       = (Returned tt,
          record (Error (if optional item
                         then "Cannot untick while publishing"
                         else "Plug-in is mandatory")) c))
  ∧ ∀ e,
      _instance_model (record e c) = _instance_model c
      ∧ _plugin_model (record e c) = _plugin_model c.
Proof.
  intros Hr. split; [by apply toggle_item_running|]. split; [|done].
  intros item Hi. destruct (optional item) eqn:Ho.
  - unfold togglePlugin, itemFromIndex.
    unfold mbind at 1, M_bind at 1. simpl. rewrite Hi, Ho.
    by apply toggle_item_running.
  - by apply (togglePlugin_mandatory index item).
Qed.

Lemma toggle_while_running_witness :
  toggleInstance 1 studio_running
  = (Returned tt,
     record (Error "Cannot untick while publishing") studio_running)
  ∧ togglePlugin 0 studio_running
    = (Returned tt,
       record (Error "Cannot untick while publishing") studio_running)
  ∧ togglePlugin 1 studio_running
    = (Returned tt, record (Error "Plug-in is mandatory") studio_running).
Proof.
  destruct (toggle_while_running studio_running 1 eq_refl) as (Hi & Hv & _).
  destruct (toggle_while_running studio_running 0 eq_refl) as (_ & He & _).
  split; [exact Hi|]. split.
  - exact (He (item "E" "Extractor" true true) eq_refl).
  - exact (Hv (item "V" "Validator" false true) eq_refl).
Defined.

(** C5, as stated, fails: the run is on, the plugin [V] at index 1 is
    mandatory, and the one notification [togglePlugin] emits is "Plug-in is
    mandatory", not the one about publishing. *)
Lemma toggle_mandatory_while_running :
  _is_running studio_running = true
  ∧ trace (togglePlugin 1 studio_running).2 = [Error "Plug-in is mandatory"]
  ∧ Error "Cannot untick while publishing"
    ∉ trace (togglePlugin 1 studio_running).2.
Proof.
  split; [done|]. split; [done|]. vm_compute.
  intros H. inversion H as [|? ? ? H']; subst. inversion H'.
Qed.

(** C6: an item that is not optional keeps [isToggled = true].
    [toggleInstance] on such an instance changes no item: during a run it
    is answered by the error about publishing, otherwise [setData] refuses
    the write.  [togglePlugin] on such a plugin emits "Plug-in is
    mandatory" and changes nothing. *)
Theorem mandatory_item_stays_toggled c index item :
  optional item = false →
  (model.itemFromIndex (_instance_model c) index = Returned item →
   isToggled item = true →
   ∃ r c',
     toggleInstance index c = (r, c')
     ∧ _instance_model c' = _instance_model c
     ∧ _plugin_model c' = _plugin_model c
     ∧ model.itemFromIndex (_instance_model c') index = Returned item
     ∧ if _is_running c
       then r = Returned tt
            ∧ trace c' = trace c ++ [Error "Cannot untick while publishing"]
       else r = Raised ImmutableFieldError ∧ trace c' = trace c)
  ∧ (model.itemFromIndex (_plugin_model c) index = Returned item →
     togglePlugin index c
     = (Returned tt, record (Error "Plug-in is mandatory") c)).
Proof.
  intros Ho. split.
  - intros Hi Ht. destruct (_is_running c) eqn:Hr.
    + do 2 eexists. split; [by apply toggle_item_running|]. by simpl.
    + do 2 eexists. split; [|by rewrite ?Hr].
      unfold toggleInstance, _toggle_item, itemFromIndex, setData. run.
      rewrite Hr. simpl. unfold model.setData.
      by rewrite Hi, Ht; simpl; rewrite Ho.
  - intros Hi. by apply (togglePlugin_mandatory index item).
Qed.

Lemma mandatory_item_stays_toggled_witness :
  (∃ r c',
     toggleInstance 0 studio_mandatory = (r, c')
     ∧ _instance_model c' = _instance_model studio_mandatory
     ∧ _plugin_model c' = _plugin_model studio_mandatory
     ∧ model.itemFromIndex (_instance_model c') 0
       = Returned (item "M" "Instance" false true)
     ∧ r = Raised ImmutableFieldError
     ∧ trace c' = trace studio_mandatory)
  ∧ togglePlugin 1 studio_mandatory
    = (Returned tt, record (Error "Plug-in is mandatory") studio_mandatory).
Proof.
  split.
  - destruct (mandatory_item_stays_toggled studio_mandatory 0
                (item "M" "Instance" false true) eq_refl) as [H _].
    exact (H eq_refl eq_refl).
  - destruct (mandatory_item_stays_toggled studio_mandatory 1
                (item "V" "Validator" false true) eq_refl) as [_ H].
    exact (H eq_refl).
Defined.

(** ** init *)

Lemma for_each_modify {A} (g : A → Controller → Controller)
    (body : A → M flow) (l : list A) :
  (∀ a c, body a c = (Returned Next, g a c)) →
  ∀ c, for_each l body c = (Returned tt, foldl (λ c a, g a c) c l).
Proof.
  intros Hbody. induction l as [|a l IH]; intros c; simpl; [done|].
  unfold mbind, M_bind. by rewrite Hbody, IH.
Qed.

Lemma add_instances (instances : list Item) :
  ∀ c,
    foldl (λ c data,
             set_model Instances
               (addItem (_instance_model c) (default_toggle data)) c)
          c instances
    = set_model Instances
        (_instance_model c ++ (default_toggle <$> instances)) c.
Proof.
  induction instances as [|data instances IH]; intros c; simpl.
  - rewrite app_nil_r. by destruct c.
  - rewrite IH. unfold addItem. simpl. by rewrite <- app_assoc.
Qed.

Lemma add_plugins (plugins : list Item) :
  ∀ c,
    foldl (λ c data,
             if bool_decide (active data = Some false) then c
             else set_model Plugins (addItem (_plugin_model c) data) c)
          c plugins
    = set_model Plugins
        (_plugin_model c
         ++ filter (λ data, active data ≠ Some false) plugins) c.
Proof.
  induction plugins as [|data plugins IH]; intros c; simpl.
  - rewrite app_nil_r. by destruct c.
  - rewrite IH. case_bool_decide as Ha.
    + rewrite filter_cons_False by (intros ?; done). done.
    + rewrite filter_cons_True by done.
      unfold addItem. simpl. by rewrite <- app_assoc.
Qed.

Lemma init_eq instances plugins system c :
  init instances plugins system c
  = (Returned tt,
     {| _instance_model := _instance_model c ++ (default_toggle <$> instances);
        _plugin_model :=
          _plugin_model c
          ++ filter (λ data, active data ≠ Some false) plugins;
        _system := system; _has_errors := _has_errors c;
        _is_running := _is_running c;
        trace := trace c ++ [Request "POST" "/session" None;
                             Request "GET" "/instances" None;
                             Request "GET" "/plugins" None;
                             Request "GET" "/application" None] |}).
Proof.
  unfold init.
  do 4 (unfold mbind at 1, M_bind at 1, emit at 1, modify at 1).
  unfold mbind at 1, M_bind at 1, modify at 1.
  unfold mbind at 1, M_bind at 1.
  rewrite (for_each_modify
             (λ data c, set_model Instances
                          (addItem (_instance_model c) (default_toggle data))
                          c)) by done.
  rewrite (for_each_modify
             (λ data c, if bool_decide (active data = Some false) then c
                        else set_model Plugins
                               (addItem (_plugin_model c) data) c)).
  2:{ intros data c'. by case_bool_decide. }
  rewrite add_instances, add_plugins.
  unfold record, set_system. simpl. by rewrite <- !app_assoc.
Qed.

(** C7: initialising a fresh controller from host records.  An instance
    item is toggled exactly when its [publish] key is true or absent (so
    not when it is false), and the plugin collection holds the plugin
    records whose [active] key is not false, in order, and no other. *)
Theorem init_defaults instances plugins system :
  ∃ c',
    init instances plugins system __init__ = (Returned tt, c')
    ∧ _instance_model c' = default_toggle <$> instances
    ∧ _plugin_model c' = filter (λ data, active data ≠ Some false) plugins
    ∧ (∀ data,
         (isToggled (default_toggle data) = true
          ↔ model.publish data = Some true ∨ model.publish data = None)
         ∧ (model.publish data = Some false →
            isToggled (default_toggle data) = false)
         ∧ name (default_toggle data) = name data)
    ∧ ∀ item, item ∈ _plugin_model c' → active item ≠ Some false.
Proof.
  eexists. split; [apply init_eq|]. simpl.
  split; [done|]. split; [done|]. split.
  - intros data. unfold default_toggle.
    destruct (model.publish data) as [[]|]; simpl; intuition congruence.
  - intros item Hin. by apply list_elem_of_filter in Hin as [? _].
Qed.

(** ** Closing the window *)

(** C9: a close request with the shift override sends the forced-close
    notification and is accepted whatever the states; without it the
    request is accepted exactly when "ready" or "finished" is among the
    states, and is otherwise ignored with the hint to hold shift. *)
Theorem close_policy modifiers states :
  (Z.land app.ShiftModifier modifiers ≠ 0 →
   app.event modifiers states app.Close
   = [app.Print "Force quitted.."; app.HostEmit "pyblishQmlCloseForced";
      app.Accept])
  ∧ (Z.land app.ShiftModifier modifiers = 0 →
     "ready" ∈ states ∨ "finished" ∈ states →
     app.event modifiers states app.Close
     = [app.HostEmit "pyblishQmlClose"; app.Accept])
  ∧ (Z.land app.ShiftModifier modifiers = 0 →
     "ready" ∉ states → "finished" ∉ states →
     app.event modifiers states app.Close
     = [app.Print "Not ready, hold SHIFT to force an exit"; app.Ignore]).
Proof.
  unfold app.event. repeat split.
  - intros Hs. by rewrite bool_decide_eq_true_2.
  - intros Hs Hst. rewrite bool_decide_eq_false_2 by (intros ?; done).
    cbn [existsb]. destruct Hst as [Hst|Hst].
    + by rewrite (bool_decide_eq_true_2 _ Hst).
    + rewrite (bool_decide_eq_true_2 _ Hst). by rewrite orb_true_r.
  - intros Hs Hr Hf. rewrite bool_decide_eq_false_2 by (intros ?; done).
    cbn [existsb].
    by rewrite (bool_decide_eq_false_2 _ Hr), (bool_decide_eq_false_2 _ Hf).
Qed.

Lemma close_policy_witness :
  app.event app.ShiftModifier ["publishing"] app.Close
  = [app.Print "Force quitted.."; app.HostEmit "pyblishQmlCloseForced";
     app.Accept]
  ∧ app.event 0 ["finished"] app.Close
    = [app.HostEmit "pyblishQmlClose"; app.Accept]
  ∧ app.event 0 ["publishing"] app.Close
    = [app.Print "Not ready, hold SHIFT to force an exit"; app.Ignore].
Proof.
  split; [|split].
  - destruct (close_policy app.ShiftModifier ["publishing"]) as (H & _ & _).
    apply H. vm_compute. discriminate.
  - destruct (close_policy 0 ["finished"]) as (_ & H & _).
    apply H; [reflexivity|]. right. apply list_elem_of_here.
  - destruct (close_policy 0 ["publishing"]) as (_ & _ & H).
    apply H; [reflexivity| |]; intros Hin;
      apply list_elem_of_In in Hin; simpl in Hin;
      destruct Hin as [Hin|[]]; discriminate Hin.
Defined.

(** ** The halt rule *)

#[local] Instance halting_dec data item : Decision (halting data item).
Proof. unfold halting. apply _. Defined.

Lemma first_halting data (items : list Item) item :
  item ∈ items → halting data item →
  ∃ mid first suf,
    items = mid ++ first :: suf
    ∧ Forall (λ x, ¬ halting data x) mid
    ∧ halting data first.
Proof.
  intros Hin Hh. induction items as [|x items IH]; [by inversion Hin|].
  destruct (decide (halting data x)) as [Hx|Hx].
  - by exists [], x, items.
  - destruct IH as (mid & first & suf & -> & Hmid & Hfirst).
    { inversion Hin; by subst. }
    exists (x :: mid), first, suf. split; [done|]. split; [|done].
    by apply Forall_cons.
Qed.

Lemma process_handler_halts data c item :
  _has_errors c = true →
  item ∈ _plugin_model c → halting data item →
  ∃ plugins,
    process_handler data c
    = (Returned tt,
       set_is_running false
         (record (Info "Stopped due to failed vaildation")
            (set_model Plugins plugins
               (set_model Instances
                  (fold_instance data <$> _instance_model c) c)))).
Proof.
  intros He Hin Hh.
  destruct (first_halting data _ item Hin Hh)
    as (mid & first & suf & Hm & Hmid & Hfirst).
  eexists. unfold process_handler.
  unfold mbind at 1, M_bind at 1. rewrite update_instances_eq.
  rewrite update_plugins_unfold. unfold mbind, M_bind, gets, enumerate.
  change (get_model Plugins
            (set_model Instances (fold_instance data <$> _instance_model c) c))
    with (_plugin_model c).
  rewrite Hm. by apply (update_plugins_halts data first suf mid []).
Qed.


Lemma worker_loop_next pending response c :
  _is_running c = true → status_code response = 200 →
  worker_loop pending response c
  = (emit_processed (json response);;
     emit (Request "POST" "/next" None);;
     match pending with
     | response' :: pending' => worker_loop pending' response'
     | [] => emit_finished
     end) c.
Proof.
  intros Hr Hs. destruct pending; simpl; run;
    by rewrite Hr, (bool_decide_eq_true_2 _ Hs).
Qed.

(** ** One item processing per collection *)

Lemma processing_none (items : list Item) :
  (∀ item, item ∈ items → isProcessing item = false) →
  processing items = [].
Proof.
  intros H. unfold processing. induction items as [|x items IH]; [done|].
  rewrite filter_cons_False.
  - apply IH. intros item Hin. apply H. by apply list_elem_of_further.
  - rewrite (H x) by apply list_elem_of_here. done.
Qed.

Lemma processing_at_most_one (o : option string) (items : list Item) :
  NoDup (name <$> items) →
  (∀ item, item ∈ items → isProcessing item = true → o = Some (name item)) →
  (length (processing items) ≤ 1)%nat.
Proof.
  intros Hnd H. induction items as [|x items IH]; [simpl; lia|].
  apply NoDup_cons in Hnd as [Hx Hnd]. unfold processing.
  destruct (decide (isProcessing x = true)) as [Hp|Hp].
  - rewrite filter_cons_True by done. simpl.
    fold (processing items). rewrite processing_none; [simpl; lia|].
    intros y Hy. destruct (isProcessing y) eqn:Hyp; [|done].
    exfalso. apply Hx.
    assert (name x = name y) as ->.
    { pose proof (H x (list_elem_of_here _ _) Hp).
      pose proof (H y (list_elem_of_further _ _ _ Hy) Hyp). congruence. }
    apply list_elem_of_fmap. eauto.
  - rewrite filter_cons_False by done. apply IH; [done|].
    intros y Hy. apply H. by apply list_elem_of_further.
Qed.

Lemma fold_instance_name data (items : list Item) :
  name <$> (fold_instance data <$> items) = name <$> items.
Proof.
  rewrite <- list_fmap_compose. apply list_fmap_ext. intros _ x _.
  unfold fold_instance, mark. simpl.
  by destruct (decide _), (error data).
Qed.

Lemma fold_plugin_name data (items : list Item) :
  name <$> (fold_plugin data <$> items) = name <$> items.
Proof.
  rewrite <- list_fmap_compose. apply list_fmap_ext. intros _ x _.
  unfold fold_plugin, mark. simpl.
  by destruct (decide _), (error data).
Qed.

Lemma fold_instance_processing data (items : list Item) item :
  item ∈ fold_instance data <$> items →
  isProcessing item = true → instance data = Some (name item).
Proof.
  intros Hin Hp. apply list_elem_of_fmap in Hin as (x & -> & _).
  revert Hp. unfold fold_instance, mark.
  destruct (decide _) as [Hn|Hn]; [|done]. by destruct (error data).
Qed.

Lemma fold_plugin_processing data (items : list Item) item :
  item ∈ fold_plugin data <$> items →
  isProcessing item = true → plugin data = Some (name item).
Proof.
  intros Hin Hp. apply list_elem_of_fmap in Hin as (x & -> & _).
  revert Hp. unfold fold_plugin, mark.
  destruct (decide _) as [Hn|Hn]; [|done]. by destruct (error data).
Qed.

Lemma processing_app (l1 l2 : list Item) :
  processing (l1 ++ l2) = processing l1 ++ processing l2.
Proof. apply filter_app. Qed.

Lemma process_handler_runs data c :
  NoDup (name <$> _plugin_model c) →
  ¬ halts data c →
  process_handler data c
  = (Returned tt,
     set_has_errors (errors_after data (_plugin_model c) (_has_errors c))
       (set_model Plugins (fold_plugin data <$> _plugin_model c)
          (set_model Instances (fold_instance data <$> _instance_model c)
             c))).
Proof.
  intros Hnd Hh. unfold process_handler.
  unfold mbind at 1, M_bind at 1. rewrite update_instances_eq.
  rewrite update_plugins_unfold. unfold mbind, M_bind, gets, enumerate.
  rewrite (update_plugins_runs data (_plugin_model c) []); [done|done|].
  simpl. destruct (_has_errors c) eqn:He; [left|by right].
  apply Forall_forall. intros x Hx Hhx. apply Hh. split; [done|]. eauto.
Qed.

Lemma process_handler_halts_at data c before halted after :
  _has_errors c = true →
  _plugin_model c = before ++ halted :: after →
  NoDup (name <$> _plugin_model c) →
  halting data halted →
  process_handler data c
  = (Returned tt,
     set_is_running false
       (record (Info "Stopped due to failed vaildation")
          (set_model Plugins
             (((λ x, setattr x (IsProcessing false)) <$> before)
              ++ halted :: after)
             (set_model Instances
                (fold_instance data <$> _instance_model c) c)))).
Proof.
  intros He Hm Hnd [Hn Ht].
  assert (∀ x, x ∈ before → plugin data ≠ Some (name x)) as Hbefore.
  { intros x Hx Hnx. rewrite Hm, fmap_app, fmap_cons in Hnd.
    apply NoDup_app in Hnd as (_ & Hnd & _). apply (Hnd (name x)).
    - apply list_elem_of_fmap. eauto.
    - assert (name x = name halted) as -> by congruence.
      apply list_elem_of_here. }
  unfold process_handler.
  unfold mbind at 1, M_bind at 1. rewrite update_instances_eq.
  rewrite update_plugins_unfold. unfold mbind, M_bind, gets, enumerate.
  change (get_model Plugins
            (set_model Instances (fold_instance data <$> _instance_model c) c))
    with (_plugin_model c).
  rewrite Hm.
  rewrite (update_plugins_halts data halted after before []); try done.
  - do 4 f_equal. simpl. f_equal. apply list_fmap_ext. intros i x Hx.
    unfold fold_plugin. destruct (decide _) as [Hnx|]; [|done].
    apply list_elem_of_lookup_2 in Hx. by apply Hbefore in Hx.
  - apply Forall_forall. intros x Hx [Hnx _]. by apply (Hbefore x).
Qed.

Lemma halts_dec data c : {halts data c} + {¬ halts data c}.
Proof.
  destruct (decide (_has_errors c = true
                    ∧ Exists (halting data) (_plugin_model c))) as [H|H].
  - left. destruct H as [He Hx]. split; [done|]. by apply Exists_exists.
  - right. intros [He Hx]. apply H. split; [done|]. by apply Exists_exists.
Qed.

(** C8, amended: in collections whose names are distinct, a fold-in
    leaves at most one instance processing, the one the result names, and
    the same for the plugins when the halt rule does not apply.  When it
    applies, the plugins before the one that halts are set to not
    processing and that plugin and those after it are left as they were, so
    the number of plugins processing does not grow; either way at most
    one plugin is processing afterwards if at most one was before. *)
Theorem fold_in_one_processing data c :
  NoDup (name <$> _instance_model c) →
  NoDup (name <$> _plugin_model c) →
  ∃ c',
    process_handler data c = (Returned tt, c')
    ∧ (∀ item, item ∈ _instance_model c' →
               isProcessing item = true → instance data = Some (name item))
    ∧ (length (processing (_instance_model c')) ≤ 1)%nat
    ∧ (¬ halts data c →
       (∀ item, item ∈ _plugin_model c' →
                isProcessing item = true → plugin data = Some (name item))
       ∧ (length (processing (_plugin_model c')) ≤ 1)%nat)
    ∧ (halts data c →
       (∃ before halted after,
          _plugin_model c = before ++ halted :: after
          ∧ halting data halted
          ∧ _plugin_model c'
            = ((λ x, setattr x (IsProcessing false)) <$> before)
              ++ halted :: after)
       ∧ (length (processing (_plugin_model c'))
          ≤ length (processing (_plugin_model c)))%nat)
    ∧ ((length (processing (_plugin_model c)) ≤ 1)%nat →
       (length (processing (_plugin_model c')) ≤ 1)%nat).
Proof.
  intros Hni Hnp.
  assert (∀ items : list Item,
            items = fold_instance data <$> _instance_model c →
            (∀ item, item ∈ items → isProcessing item = true →
                     instance data = Some (name item))
            ∧ (length (processing items) ≤ 1)%nat) as Hinst.
  { intros items ->. split; [apply fold_instance_processing|].
    apply (processing_at_most_one (instance data)).
    - by rewrite fold_instance_name.
    - apply fold_instance_processing. }
  destruct (halts_dec data c) as [Hh|Hh].
  - destruct Hh as [He (halted & Hin & Hhalted)].
    apply list_elem_of_split in Hin as (before & after & Hm).
    eexists. split; [by apply (process_handler_halts_at data c before)|].
    simpl. destruct (Hinst _ eq_refl) as [H1 H2].
    assert (length (processing
                      (((λ x, setattr x (IsProcessing false)) <$> before)
                       ++ halted :: after))
            ≤ length (processing (_plugin_model c)))%nat as Hle.
    { rewrite Hm, !processing_app, !length_app.
      rewrite processing_none; [simpl; lia|].
      intros x Hx. by apply list_elem_of_fmap in Hx as (y & -> & _). }
    split; [done|]. split; [done|]. split; [|split].
    + intros Hno. destruct Hno. split; [done|]. exists halted.
      split; [|done]. rewrite Hm. apply elem_of_app. right.
      apply list_elem_of_here.
    + intros _. split; [by exists before, halted, after|exact Hle].
    + intros H. exact (Nat.le_trans _ _ _ Hle H).
  - eexists. split; [by apply process_handler_runs|].
    simpl. destruct (Hinst _ eq_refl) as [H1 H2].
    assert (length (processing (fold_plugin data <$> _plugin_model c))
            ≤ 1)%nat as Hle.
    { apply (processing_at_most_one (plugin data)).
      - by rewrite fold_plugin_name.
      - apply fold_plugin_processing. }
    split; [done|]. split; [done|]. split; [|split; [done|]].
    + intros _. split; [apply fold_plugin_processing|exact Hle].
    + intros _. exact Hle.
Qed.

Lemma fold_in_one_processing_witness :
  ∃ c',
    process_handler (step (Some "A") (Some "V") true) studio_running
    = (Returned tt, c')
    ∧ (∀ item, item ∈ _instance_model c' →
               isProcessing item = true →
               instance (step (Some "A") (Some "V") true)
               = Some (name item))
    ∧ (length (processing (_instance_model c')) ≤ 1)%nat
    ∧ (¬ halts (step (Some "A") (Some "V") true) studio_running →
       (∀ item, item ∈ _plugin_model c' →
                isProcessing item = true →
                plugin (step (Some "A") (Some "V") true) = Some (name item))
       ∧ (length (processing (_plugin_model c')) ≤ 1)%nat)
    ∧ (halts (step (Some "A") (Some "V") true) studio_running →
       (∃ before halted after,
          _plugin_model studio_running = before ++ halted :: after
          ∧ halting (step (Some "A") (Some "V") true) halted
          ∧ _plugin_model c'
            = ((λ x, setattr x (IsProcessing false)) <$> before)
              ++ halted :: after)
       ∧ (length (processing (_plugin_model c'))
          ≤ length (processing (_plugin_model studio_running)))%nat)
    ∧ ((length (processing (_plugin_model studio_running)) ≤ 1)%nat →
       (length (processing (_plugin_model c')) ≤ 1)%nat).
Proof.
  apply (fold_in_one_processing (step (Some "A") (Some "V") true)
           studio_running).
  - apply (bool_decide_unpack _). vm_compute. exact I.
  - apply (bool_decide_unpack _). vm_compute. exact I.
Defined.

(** C8, as stated, fails: the validator [V] has failed and is the plugin
    processing; the next result names the extractor [E], the halt rule
    applies, and the sibling [V] of [E] is still processing after the
    fold-in. *)
Lemma halted_sibling_still_processing :
  plugin (step None (Some "E") false) = Some "E"
  ∧ (∃ named, named ∈ _plugin_model studio_failed ∧ name named = "E")
  ∧ ∃ sibling,
      sibling
      ∈ _plugin_model
          (process_handler (step None (Some "E") false) studio_failed).2
      ∧ name sibling = "V"
      ∧ isProcessing sibling = true.
Proof.
  split; [done|]. split.
  - eexists. split; [apply list_elem_of_here|done].
  - eexists. split; [vm_compute; apply list_elem_of_further,
                       list_elem_of_here|]. done.
Qed.

(** ** What a fold-in never touches *)

Lemma same_identity_refl item : same_identity item item.
Proof. by repeat split. Qed.

Lemma same_identity_setattr item a :
  (∀ b, a ≠ IsToggled b) → same_identity item (setattr item a).
Proof. intros Ha. destruct a; try by repeat split. by destruct (Ha b). Qed.

Lemma same_identity_mark err item : same_identity item (mark err item).
Proof. unfold mark. by destruct err; repeat split. Qed.

Lemma same_identity_fold_instance data item :
  same_identity item (fold_instance data item).
Proof.
  unfold fold_instance. destruct (decide _).
  - apply same_identity_mark.
  - by repeat split.
Qed.

Lemma same_identity_fold_plugin data item :
  same_identity item (fold_plugin data item).
Proof.
  unfold fold_plugin. destruct (decide _).
  - apply same_identity_mark.
  - by repeat split.
Qed.

Lemma Forall2_same_identity_refl (items : list Item) :
  Forall2 same_identity items items.
Proof. induction items; constructor; [apply same_identity_refl|done]. Qed.

Lemma Forall2_same_identity_fmap (f : Item → Item) (items : list Item) :
  (∀ item, same_identity item (f item)) →
  Forall2 same_identity items (f <$> items).
Proof. intros Hf. induction items; constructor; [apply Hf|done]. Qed.

(** One pass of the loop of [update_plugins], whatever the names. *)
Lemma update_plugins_any data suf :
  ∀ pre c,
    get_model Plugins c = pre ++ suf →
    ∃ c' plugins,
      for_each (enumerate_from (length pre) suf) (update_plugin data) c
      = (Returned tt, c')
      ∧ _plugin_model c' = pre ++ plugins
      ∧ Forall2 same_identity suf plugins
      ∧ _instance_model c' = _instance_model c
      ∧ _system c' = _system c
      ∧ (_has_errors c = true → _has_errors c' = true)
      ∧ ((trace c' = trace c ∧ _is_running c' = _is_running c)
         ∨ (trace c' = trace c ++ [Info "Stopped due to failed vaildation"]
            ∧ _is_running c' = false ∧ _has_errors c' = true)).
Proof.
  induction suf as [|x suf IH]; intros pre c Hm.
  - exists c, []. cbn [enumerate_from for_each]. unfold mret, M_ret.
    split; [done|]. split; [done|]. split; [constructor|]. by eauto 10.
  - cbn [enumerate_from for_each]. unfold mbind, M_bind.
    rewrite (length_snoc pre (fold_plugin data x)).
    destruct (decide (plugin data = Some (name x))) as [Hn|Hn].
    + destruct (decide (_has_errors c = true ∧ type x = "Extractor"))
        as [[He Ht]|Hno].
      * rewrite (update_plugin_halt data pre x suf c Hm He (conj Hn Ht)).
        eexists. exists (x :: suf). split; [done|]. simpl.
        split; [done|]. split; [apply Forall2_same_identity_refl|].
        split; [done|]. split; [done|]. split; [done|]. by right.
      * rewrite (update_plugin_mark data pre x suf c Hm Hn Hno).
        edestruct (IH (pre ++ [fold_plugin data x])) as
          (c' & plugins & Hrun & Hp & Hid & Hi & Hs & He & Ht).
        2:{ rewrite Hrun. exists c', (fold_plugin data x :: plugins).
            split; [done|]. split; [by rewrite Hp, <- app_assoc|].
            split; [constructor; [apply same_identity_fold_plugin|done]|].
            simpl in *. split; [done|]. split; [done|].
            split; [|done]. intros Hc. apply He. by rewrite Hc. }
        simpl. by rewrite <- app_assoc.
    + rewrite (update_plugin_other data pre x suf c Hm Hn).
      edestruct (IH (pre ++ [fold_plugin data x])) as
        (c' & plugins & Hrun & Hp & Hid & Hi & Hs & He & Ht).
      2:{ rewrite Hrun. exists c', (fold_plugin data x :: plugins).
          split; [done|]. split; [by rewrite Hp, <- app_assoc|].
          split; [constructor; [apply same_identity_fold_plugin|done]|].
          simpl in *. done. }
      by rewrite get_set_model, <- app_assoc.
Qed.

Lemma process_handler_any data c :
  ∃ c',
    process_handler data c = (Returned tt, c')
    ∧ Forall2 same_identity (_instance_model c) (_instance_model c')
    ∧ Forall2 same_identity (_plugin_model c) (_plugin_model c')
    ∧ _system c' = _system c
    ∧ (_has_errors c = true → _has_errors c' = true)
    ∧ ((trace c' = trace c ∧ _is_running c' = _is_running c)
       ∨ (trace c' = trace c ++ [Info "Stopped due to failed vaildation"]
          ∧ _is_running c' = false ∧ _has_errors c' = true)).
Proof.
  unfold process_handler. unfold mbind at 1, M_bind at 1.
  rewrite update_instances_eq, update_plugins_unfold.
  unfold mbind, M_bind, gets, enumerate.
  destruct (update_plugins_any data
              (get_model Plugins
                 (set_model Instances
                    (fold_instance data <$> _instance_model c) c)) []
              (set_model Instances
                 (fold_instance data <$> _instance_model c) c) eq_refl)
    as (c' & plugins & Hrun & Hp & Hid & Hi & Hs & He & Ht).
  simpl in *. rewrite Hrun. exists c'. split; [done|].
  split.
  { rewrite Hi. apply Forall2_same_identity_fmap,
      same_identity_fold_instance. }
  split; [by rewrite Hp|]. done.
Qed.

Lemma toggled_names_same (olds news : list Item) :
  Forall2 same_identity olds news → toggled_names news = toggled_names olds.
Proof.
  induction 1 as [|old new olds news (Hn & _ & _ & _ & _ & Ht) _ IH];
    [done|].
  simpl. by rewrite Hn, Ht, IH.
Qed.

(** X1: folding a step result in never raises and never alters what is
    selected: both collections keep their items' names, types, optional
    flags and toggles (so the names [publish] would submit are the same),
    [hasErrors] is never cleared, [isRunning] is never turned on, and the
    only thing emitted is at most the one info notification of the halt
    rule. *)
Theorem fold_in_keeps_selection data c :
  ∃ c',
    process_handler data c = (Returned tt, c')
    ∧ Forall2 same_identity (_instance_model c) (_instance_model c')
    ∧ Forall2 same_identity (_plugin_model c) (_plugin_model c')
    ∧ toggled_names (_instance_model c') = toggled_names (_instance_model c)
    ∧ toggled_names (_plugin_model c') = toggled_names (_plugin_model c)
    ∧ (_has_errors c = true → _has_errors c' = true)
    ∧ (_is_running c' = true → _is_running c = true)
    ∧ (trace c' = trace c
       ∨ trace c' = trace c ++ [Info "Stopped due to failed vaildation"]).
Proof.
  destruct (process_handler_any data c)
    as (c' & Hrun & Hi & Hp & _ & He & Ht).
  exists c'. split; [done|]. split; [done|]. split; [done|].
  split; [by apply toggled_names_same|].
  split; [by apply toggled_names_same|]. split; [done|].
  destruct Ht as [[Ht Hr]|(Ht & Hr & _)].
  - split; [by rewrite Hr|by left].
  - split; [by rewrite Hr|by right].
Qed.



Lemma worker_loop_unfold pending response c :
  worker_loop pending response c
  = if _is_running c && bool_decide (status_code response = 200) then
      (emit_processed (json response);;
       emit (Request "POST" "/next" None);;
       match pending with
       | response' :: pending' => worker_loop pending' response'
       | [] => emit_finished
       end) c
    else emit_finished c.
Proof. destruct pending; simpl; run; by destruct (_ && _). Qed.




(** ** Every run of the worker *)









(** ** stop *)


(** ** reset *)

Lemma clear_results_idem item :
  clear_results (clear_results item) = clear_results item.
Proof. done. Qed.

(** X6: [reset] writes [hasError = false] and [succeeded = false] on every
    item of both collections and nothing else: toggles, progress, flags of
    the controller and the trace (no notification, no host request) are as
    before, and a second [reset] changes nothing more. *)
Theorem reset_clears_results_only c :
  reset c
  = (Returned tt,
     {| _instance_model := clear_results <$> _instance_model c;
        _plugin_model := clear_results <$> _plugin_model c;
        _system := _system c; _has_errors := _has_errors c;
        _is_running := _is_running c; trace := trace c |})
  ∧ (reset;; reset) c = reset c
  ∧ ∀ item,
      hasError (clear_results item) = false
      ∧ succeeded (clear_results item) = false
      ∧ same_identity item (clear_results item)
      ∧ isProcessing (clear_results item) = isProcessing item
      ∧ currentProgress (clear_results item) = currentProgress item.
Proof.
  unfold reset. split; [by rewrite reset_state_eq|]. split.
  - unfold mbind, M_bind. rewrite !reset_state_eq. simpl.
    rewrite <- !list_fmap_compose. do 2 f_equal.
  - intros item. by repeat split.
Qed.

(** ** Toggling, when no run is on *)

Lemma itemFromIndex_Returned (items : list Item) index item :
  model.itemFromIndex items index = Returned item →
  0 ≤ index < Z.of_nat (length items)
  ∧ items !! Z.to_nat index = Some item.
Proof.
  unfold model.itemFromIndex. intros H.
  destruct (0 <=? index) eqn:H0; [|done].
  destruct (index <? Z.of_nat (length items)) eqn:H1; [|done].
  simpl in H. destruct (items !! Z.to_nat index) eqn:Hl; [|done].
  split; [lia|congruence].
Qed.

Lemma itemFromIndex_insert (items : list Item) index item new :
  model.itemFromIndex items index = Returned item →
  model.itemFromIndex (<[Z.to_nat index := new]> items) index = Returned new.
Proof.
  intros H. apply itemFromIndex_Returned in H as [Hr Hl].
  unfold model.itemFromIndex. rewrite length_insert.
  replace (0 <=? index) with true by lia.
  replace (index <? Z.of_nat (length items)) with true by lia.
  simpl. rewrite list_lookup_insert_eq; [done|lia].
Qed.

Lemma itemFromIndex_out_of_range (items : list Item) index :
  ¬ (0 ≤ index < Z.of_nat (length items)) →
  model.itemFromIndex items index = Raised IndexOutOfRangeError.
Proof.
  intros H. unfold model.itemFromIndex.
  destruct (0 <=? index) eqn:H0; [|done].
  destruct (index <? Z.of_nat (length items)) eqn:H1; [|done]. lia.
Qed.

Lemma toggle_item_idle w index item c :
  _is_running c = false →
  model.itemFromIndex (get_model w c) index = Returned item →
  optional item = true ∨ isToggled item = false →
  _toggle_item w index c
  = (Returned tt,
     set_model w (<[Z.to_nat index := flipped item]> (get_model w c)) c).
Proof.
  intros Hr Hi Ho. unfold _toggle_item, itemFromIndex, setData. run.
  rewrite Hr, Hi. unfold model.setData. rewrite Hi.
  replace (clears_mandatory item (IsToggled (negb (isToggled item))))
    with false; [done|].
  simpl. destruct Ho as [->| ->]; [by destruct (isToggled item)|done].
Qed.

(** X7: with no run on, toggling an optional item (or switching on one
    that is off) flips [isToggled] of the item at [index] and touches
    nothing else: every other item of that collection, the other
    collection, the flags and the trace stay as they are, and reading the
    item back gives the flipped item. *)
Theorem toggle_flips_one w index item c :
  _is_running c = false →
  model.itemFromIndex (get_model w c) index = Returned item →
  optional item = true ∨ isToggled item = false →
  ∃ c',
    _toggle_item w index c = (Returned tt, c')
    ∧ _item_data w index c' = (Returned (flipped item), c')
    ∧ (∀ j, j ≠ Z.to_nat index → get_model w c' !! j = get_model w c !! j)
    ∧ length (get_model w c') = length (get_model w c)
    ∧ (∀ w', w' ≠ w → get_model w' c' = get_model w' c)
    ∧ trace c' = trace c
    ∧ _is_running c' = false ∧ _has_errors c' = _has_errors c.
Proof.
  intros Hr Hi Ho. eexists. split; [by apply toggle_item_idle|].
  split.
  { unfold _item_data, itemFromIndex. rewrite get_set_model.
    by rewrite (itemFromIndex_insert _ _ item). }
  split.
  { intros j Hj. rewrite get_set_model.
    by rewrite list_lookup_insert_ne. }
  split; [by rewrite get_set_model, length_insert|].
  split; [intros w' Hw; by destruct w, w'|].
  by destruct w.
Qed.

Lemma toggle_flips_one_witness :
  ∃ c',
    _toggle_item Instances 1 studio = (Returned tt, c')
    ∧ _item_data Instances 1 c'
      = (Returned (flipped (item "B" "Instance" true false)), c')
    ∧ (∀ j, j ≠ Z.to_nat 1 →
            get_model Instances c' !! j = get_model Instances studio !! j)
    ∧ length (get_model Instances c') = length (get_model Instances studio)
    ∧ (∀ w', w' ≠ Instances → get_model w' c' = get_model w' studio)
    ∧ trace c' = trace studio
    ∧ _is_running c' = false ∧ _has_errors c' = _has_errors studio.
Proof.
  apply (toggle_flips_one Instances 1 (item "B" "Instance" true false)
           studio).
  - reflexivity.
  - reflexivity.
  - left. reflexivity.
Defined.

(** X8: with no run on, toggling an optional item twice brings the
    controller back to the state it was in. *)
Theorem toggle_twice_restores w index item c :
  _is_running c = false →
  model.itemFromIndex (get_model w c) index = Returned item →
  optional item = true →
  (_toggle_item w index;; _toggle_item w index) c = (Returned tt, c).
Proof.
  intros Hr Hi Ho. unfold mbind, M_bind.
  rewrite (toggle_item_idle w index item c Hr Hi (or_introl Ho)).
  rewrite (toggle_item_idle w index (flipped item)).
  - rewrite get_set_model, set_set_model, list_insert_insert_eq.
    replace (flipped (flipped item)) with item
      by (destruct item as [? ? ? ? ? []]; done).
    apply itemFromIndex_Returned in Hi as [_ Hl].
    by rewrite list_insert_id, set_get_model.
  - by destruct w.
  - rewrite get_set_model. by apply (itemFromIndex_insert _ _ item).
  - by left.
Qed.

Lemma toggle_twice_restores_witness :
  (_toggle_item Plugins 0;; _toggle_item Plugins 0) studio
  = (Returned tt, studio).
Proof.
  apply (toggle_twice_restores Plugins 0 (item "E" "Extractor" true true)
           studio); reflexivity.
Defined.

(** X9: an index outside the collection.  [togglePlugin], [pluginData]
    and [instanceData] raise [IndexOutOfRangeError] and change nothing,
    with or without a run on; [toggleInstance] does so when no run is on,
    and during a run it does not look the index up at all but answers with
    the error notification. *)
Theorem index_out_of_range index c :
  (¬ (0 ≤ index < Z.of_nat (length (_plugin_model c))) →
   togglePlugin index c = (Raised IndexOutOfRangeError, c)
   ∧ pluginData index c = (Raised IndexOutOfRangeError, c))
  ∧ (¬ (0 ≤ index < Z.of_nat (length (_instance_model c))) →
     instanceData index c = (Raised IndexOutOfRangeError, c)
     ∧ toggleInstance index c
       = if _is_running c
         then (Returned tt,
               record (Error "Cannot untick while publishing") c)
         else (Raised IndexOutOfRangeError, c)).
Proof.
  split; intros Hout.
  - unfold togglePlugin, pluginData, _item_data, itemFromIndex. run. simpl.
    by rewrite (itemFromIndex_out_of_range _ _ Hout).
  - unfold toggleInstance, _toggle_item, instanceData, _item_data,
      itemFromIndex. run. simpl.
    rewrite (itemFromIndex_out_of_range _ _ Hout).
    split; [done|]. destruct (_is_running c); [done|].
    by rewrite (itemFromIndex_out_of_range _ _ Hout).
Qed.

Lemma index_out_of_range_witness :
  (togglePlugin 2 studio_running = (Raised IndexOutOfRangeError, studio_running)
   ∧ pluginData 2 studio_running
     = (Raised IndexOutOfRangeError, studio_running))
  ∧ (instanceData (-1) studio = (Raised IndexOutOfRangeError, studio)
     ∧ toggleInstance (-1) studio
       = if _is_running studio
         then (Returned tt,
               record (Error "Cannot untick while publishing") studio)
         else (Raised IndexOutOfRangeError, studio)).
Proof.
  split.
  - destruct (index_out_of_range 2 studio_running) as [H _].
    apply H. simpl. lia.
  - destruct (index_out_of_range (-1) studio) as [_ H].
    apply H. simpl. lia.
Defined.

(** ** What publish sends *)

Lemma has_selection_true c :
  has_selection c = true →
  toggled_names (_instance_model c) ≠ []
  ∧ toggled_names (_plugin_model c) ≠ [].
Proof.
  unfold has_selection. intros H. apply andb_true_iff in H as [Hi Hp].
  split; intros E; by rewrite E in *.
Qed.

Lemma toggled_names_filter (items : list Item) :
  toggled_names items
  = name <$> filter (λ item, isToggled item = true) items.
Proof.
  induction items as [|x items IH]; [done|]. simpl.
  destruct (isToggled x) eqn:Ht.
  - rewrite filter_cons_True by done. simpl. by rewrite IH.
  - rewrite filter_cons_False by (by rewrite Ht). done.
Qed.

Lemma publish_transport_eq e c :
  has_selection c = true →
  publish (Fails e) c
  = match getattr_msg e with
    | Some msg =>
        (Returned tt,
         record (LogError msg)
           (record (Error msg)
              (record (Request "POST" "/state"
                         (Some (State (toggled_names (_instance_model c))
                                      (toggled_names (_plugin_model c)))))
                 (record (Info (selection_message
                                  (toggled_names (_instance_model c))
                                  (toggled_names (_plugin_model c)))) c))))
    | None =>
        (Raised (AttributeError "msg"),
         record (Request "POST" "/state"
                   (Some (State (toggled_names (_instance_model c))
                                (toggled_names (_plugin_model c)))))
           (record (Info (selection_message
                            (toggled_names (_instance_model c))
                            (toggled_names (_plugin_model c)))) c))
    end.
Proof.
  intros Hsel. unfold publish, serialized.
  unfold mbind at 1, M_bind at 1, gets at 1.
  unfold mbind at 1, M_bind at 1, gets at 1.
  unfold has_selection in Hsel. rewrite Hsel. cbn [negb].
  run. by destruct (getattr_msg e).
Qed.

(** X10: the names [publish] submits are those of the toggled items, in
    the order of the collection: whenever something is toggled in both
    collections, whatever the host then does, the request [POST /state]
    carries exactly the names of the instances with [isToggled] and the
    names of the plugins with [isToggled]. *)
Theorem publish_submits_toggled submission c :
  has_selection c = true →
  Request "POST" "/state"
    (Some (State
             (name <$> filter (λ item, isToggled item = true)
                         (_instance_model c))
             (name <$> filter (λ item, isToggled item = true)
                         (_plugin_model c))))
  ∈ trace (publish submission c).2.
Proof.
  intros Hsel. destruct (has_selection_true c Hsel) as [Hi Hp].
  rewrite <- !toggled_names_filter.
  destruct submission as [r|e].
  - destruct (decide (status_code r = 200)) as [Hs|Hs].
    + rewrite publish_accepted_eq by done. simpl.
      apply elem_of_app. right. apply list_elem_of_further,
        list_elem_of_here.
    + rewrite publish_rejected_eq by done. simpl.
      apply elem_of_app. right. apply list_elem_of_here.
  - rewrite publish_transport_eq by done.
    destruct (getattr_msg e); simpl; rewrite !elem_of_app;
      repeat (first [right; apply list_elem_of_here | left]).
Qed.

Lemma publish_submits_toggled_witness :
  Request "POST" "/state"
    (Some (State
             (name <$> filter (λ item, isToggled item = true)
                         (_instance_model studio))
             (name <$> filter (λ item, isToggled item = true)
                         (_plugin_model studio))))
  ∈ trace (publish (Replies rejected) studio).2.
Proof.
  apply (publish_submits_toggled (Replies rejected) studio). reflexivity.
Defined.

(** X11: [publish] posts the state once exactly when something is toggled
    in both collections, starts the worker thread once exactly when in
    addition the host answers 200, and never asks the host for a step
    itself. *)
Theorem publish_starts_worker_on_200 submission c :
  ∃ evs,
    trace (publish submission c).2 = trace c ++ evs
    ∧ count is_state_request evs = (if has_selection c then 1 else 0)%nat
    ∧ count is_thread_start evs
      = (if has_selection c && is_accepted submission then 1 else 0)%nat
    ∧ count is_next_request evs = 0%nat.
Proof.
  destruct (has_selection c) eqn:Hsel.
  - destruct (has_selection_true c Hsel) as [Hi Hp].
    destruct submission as [r|e]; simpl.
    + case_bool_decide as Hs.
      * rewrite publish_accepted_eq by done. by eexists.
      * rewrite publish_rejected_eq by done. simpl.
        rewrite <- app_assoc. by eexists.
    + rewrite publish_transport_eq by done.
      destruct (getattr_msg e); simpl; rewrite <- ?app_assoc; by eexists.
  - rewrite publish_unselected by done. by eexists.
Qed.

(** X12: a transport failure whose exception carries a [msg] is the one
    failure [publish] handles: it is reported once through [error] and the
    log, [publish] returns, the worker is not started, and items and flags
    are as before. *)
Theorem publish_reports_transport_failure e msg c :
  has_selection c = true →
  getattr_msg e = Some msg →
  ∃ c' info state,
    publish (Fails e) c = (Returned tt, c')
    ∧ trace c' = trace c ++ [Info info; Request "POST" "/state" (Some state);
                             Error msg; LogError msg]
    ∧ _instance_model c' = _instance_model c
    ∧ _plugin_model c' = _plugin_model c
    ∧ _is_running c' = _is_running c
    ∧ _has_errors c' = _has_errors c.
Proof.
  intros Hsel Hmsg. rewrite publish_transport_eq, Hmsg by done.
  do 3 eexists. split; [done|]. simpl. by rewrite <- !app_assoc.
Qed.

Lemma publish_reports_transport_failure_witness :
  ∃ c' info state,
    publish (Fails (HostUnavailableError (Some "Connection refused"))) studio
    = (Returned tt, c')
    ∧ trace c' = trace studio
                 ++ [Info info; Request "POST" "/state" (Some state);
                     Error "Connection refused";
                     LogError "Connection refused"]
    ∧ _instance_model c' = _instance_model studio
    ∧ _plugin_model c' = _plugin_model studio
    ∧ _is_running c' = _is_running studio
    ∧ _has_errors c' = _has_errors studio.
Proof.
  apply (publish_reports_transport_failure
           (HostUnavailableError (Some "Connection refused"))
           "Connection refused" studio); reflexivity.
Defined.

(** X13: every other failed submission, that is any reply whose status is
    not 200 and any exception without a [msg], ends in an [AttributeError]
    raised from the handler of [publish]: by then the info notification
    and the request have gone out, no [error] notification is emitted, the
    worker is not started, and items and flags are as before. *)
Theorem publish_failure_escapes submission c :
  has_selection c = true →
  is_accepted submission = false →
  (∀ e, submission = Fails e → getattr_msg e = None) →
  ∃ c' info state,
    publish submission c = (Raised (AttributeError "msg"), c')
    ∧ trace c' = trace c ++ [Info info; Request "POST" "/state" (Some state)]
    ∧ _instance_model c' = _instance_model c
    ∧ _plugin_model c' = _plugin_model c
    ∧ _is_running c' = _is_running c
    ∧ _has_errors c' = _has_errors c.
Proof.
  intros Hsel Hacc Hmsg. destruct (has_selection_true c Hsel) as [Hi Hp].
  destruct submission as [r|e]; simpl in Hacc.
  - apply bool_decide_eq_false in Hacc.
    rewrite publish_rejected_eq by done.
    do 3 eexists. split; [done|]. simpl. by rewrite <- !app_assoc.
  - rewrite publish_transport_eq, (Hmsg e eq_refl) by done.
    do 3 eexists. split; [done|]. simpl. by rewrite <- !app_assoc.
Qed.

Lemma publish_failure_escapes_witness :
  ∃ c' info state,
    publish (Fails (HostUnavailableError None)) studio
    = (Raised (AttributeError "msg"), c')
    ∧ trace c' = trace studio
                 ++ [Info info; Request "POST" "/state" (Some state)]
    ∧ _instance_model c' = _instance_model studio
    ∧ _plugin_model c' = _plugin_model studio
    ∧ _is_running c' = _is_running studio
    ∧ _has_errors c' = _has_errors studio.
Proof.
  apply (publish_failure_escapes (Fails (HostUnavailableError None)) studio).
  - reflexivity.
  - reflexivity.
  - intros e He. injection He as <-. reflexivity.
Defined.

(** ** init, again *)

(** X14: [init] does not empty the collections first: on a controller
    that already holds items it keeps them, in front and unchanged, and
    appends the new ones, so initialising twice from the same records
    holds every item twice.  It makes its four requests in a fixed order
    and leaves [isRunning] and [hasErrors] alone. *)
Theorem init_appends instances plugins system c :
  ∃ c',
    init instances plugins system c = (Returned tt, c')
    ∧ _instance_model c' = _instance_model c ++ (default_toggle <$> instances)
    ∧ _plugin_model c'
      = _plugin_model c ++ filter (λ data, active data ≠ Some false) plugins
    ∧ trace c' = trace c ++ [Request "POST" "/session" None;
                             Request "GET" "/instances" None;
                             Request "GET" "/plugins" None;
                             Request "GET" "/application" None]
    ∧ _system c' = system
    ∧ _is_running c' = _is_running c ∧ _has_errors c' = _has_errors c
    ∧ ∃ c'',
        init instances plugins system c' = (Returned tt, c'')
        ∧ _instance_model c''
          = _instance_model c ++ (default_toggle <$> instances)
            ++ (default_toggle <$> instances)
        ∧ (length (_plugin_model c'')
           = length (_plugin_model c)
             + 2 * length (filter (λ data, active data ≠ Some false)
                             plugins))%nat.
Proof.
  eexists. split; [apply init_eq|]. simpl.
  do 6 (split; [done|]). eexists. split; [apply init_eq|]. simpl.
  split; [by rewrite <- app_assoc|]. rewrite !length_app. lia.
Qed.

Lemma toggled_names_default (instances : list Item) :
  toggled_names (default_toggle <$> instances)
  = name <$> filter (λ data, model.publish data ≠ Some false) instances.
Proof.
  induction instances as [|x instances IH]; [done|].
  rewrite fmap_cons. cbn [toggled_names]. unfold default_toggle at 1 2.
  destruct (model.publish x) as [[]|] eqn:Hp; simpl.
  - rewrite filter_cons_True by (by rewrite Hp). simpl. by rewrite IH.
  - rewrite filter_cons_False by (rewrite Hp; tauto). by rewrite IH.
  - rewrite filter_cons_True by (by rewrite Hp). simpl. by rewrite IH.
Qed.

(** X15: on a freshly initialised controller the instances [publish]
    would submit are the instance records whose [publish] key is not
    false, whatever [isToggled] the record itself carried, and the plugins
    it would submit are the records that are active and toggled. *)
Theorem init_selects_published instances plugins system :
  ∃ c',
    init instances plugins system __init__ = (Returned tt, c')
    ∧ toggled_names (serialized (_instance_model c'))
      = name <$> filter (λ data, model.publish data ≠ Some false) instances
    ∧ toggled_names (serialized (_plugin_model c'))
      = name <$> filter (λ data, isToggled data = true)
                   (filter (λ data, active data ≠ Some false) plugins).
Proof.
  eexists. split; [apply init_eq|]. simpl. unfold serialized.
  split; [apply toggled_names_default|apply toggled_names_filter].
Qed.

(** ** The window and the application *)

(** X16: what a close request can and cannot do.  An event that is not a
    close request causes nothing.  The forced-close notification is sent
    only under the shift override; a request is ignored only without the
    override and outside "ready" and "finished"; and a close request is
    given one verdict, as its last action. *)
Theorem close_verdicts modifiers states type :
  (type = app.Other → app.event modifiers states type = [])
  ∧ (app.HostEmit "pyblishQmlCloseForced" ∈ app.event modifiers states type
     ↔ type = app.Close ∧ Z.land app.ShiftModifier modifiers ≠ 0)
  ∧ (app.Ignore ∈ app.event modifiers states type
     ↔ type = app.Close ∧ Z.land app.ShiftModifier modifiers = 0
       ∧ ("ready" ∉ states) ∧ ("finished" ∉ states))
  ∧ (type = app.Close →
     ∃ before verdict,
       app.event modifiers states type = before ++ [verdict]
       ∧ (verdict = app.Accept ∨ verdict = app.Ignore)
       ∧ (app.Accept ∉ before) ∧ (app.Ignore ∉ before)).
Proof.
  assert (∀ x (l : list app.action), x ∈ l ↔ In x l) as Hin
    by (intros; apply list_elem_of_In).
  split; [by intros ->|]. unfold app.event.
  destruct type; cbn [existsb].
  2:{ rewrite !Hin. simpl.
      split; [|split]; [intuition discriminate|intuition discriminate|done]. }
  destruct (decide (Z.land app.ShiftModifier modifiers = 0)) as [Hs|Hs].
  - rewrite bool_decide_eq_false_2 by tauto.
    destruct (decide ("ready" ∈ states)) as [Hr|Hr];
      [rewrite (bool_decide_eq_true_2 _ Hr); cbn [orb]|
       rewrite (bool_decide_eq_false_2 _ Hr); cbn [orb];
       destruct (decide ("finished" ∈ states)) as [Hf|Hf];
       [rewrite (bool_decide_eq_true_2 _ Hf); cbn [orb]|
        rewrite (bool_decide_eq_false_2 _ Hf); cbn [orb]]];
      rewrite !Hin; simpl.
    + split; [|split]; [intuition congruence|intuition congruence|].
      intros _. exists [app.HostEmit "pyblishQmlClose"], app.Accept.
      rewrite !Hin. simpl. intuition congruence.
    + split; [|split]; [intuition congruence|intuition congruence|].
      intros _. exists [app.HostEmit "pyblishQmlClose"], app.Accept.
      rewrite !Hin. simpl. intuition congruence.
    + split; [|split]; [intuition congruence|intuition congruence|].
      intros _.
      exists [app.Print "Not ready, hold SHIFT to force an exit"], app.Ignore.
      rewrite !Hin. simpl. intuition congruence.
  - rewrite bool_decide_eq_true_2 by done. rewrite !Hin. simpl.
    split; [|split]; [intuition congruence|intuition congruence|].
    intros _.
    exists [app.Print "Force quitted..";
            app.HostEmit "pyblishQmlCloseForced"], app.Accept.
    rewrite !Hin. simpl. intuition congruence.
Qed.

(** X17: registering a client and deregistering it again.  For a port
    that was not registered the table of clients is back to what it was;
    the port stays the current client, though, since
    [deregister_client] does not touch [current_client]. *)
Theorem register_deregister {time} port (now : time)
    (a : app.Application) :
  app.clients a !! port = None →
  app.deregister_client port (app.register_client port now a)
  = Some {| app.clients := app.clients a;
            app.current_client := Some port |}.
Proof.
  intros Hfresh. unfold app.deregister_client, app.register_client. simpl.
  rewrite lookup_insert_eq. f_equal. f_equal.
  rewrite delete_insert_eq. by apply delete_id.
Qed.

Lemma register_deregister_witness :
  app.deregister_client 6001
    (app.register_client 6001 10 (app.no_clients (time := Z)))
  = Some {| app.clients := app.clients (app.no_clients (time := Z));
            app.current_client := Some 6001 |}.
Proof. apply (register_deregister 6001 10 app.no_clients). reflexivity. Defined.

(** X18: [deregister_client] fails with [KeyError] exactly on a port that
    is not registered, and in particular on the second of two
    deregistrations of a port; when it succeeds it removes that port and
    keeps every other client with its time stamp. *)
Theorem deregister_removes_one {time} port (a : app.Application (time := time)) :
  (app.deregister_client port a = None ↔ app.clients a !! port = None)
  ∧ ∀ a',
      app.deregister_client port a = Some a' →
      app.clients a' !! port = None
      ∧ (∀ other, other ≠ port →
                  app.clients a' !! other = app.clients a !! other)
      ∧ app.current_client a' = app.current_client a
      ∧ app.deregister_client port a' = None.
Proof.
  unfold app.deregister_client. split.
  - by destruct (app.clients a !! port).
  - intros a' H. destruct (app.clients a !! port); [|done].
    injection H as <-. simpl. rewrite lookup_delete_eq.
    split; [done|]. split; [|done].
    intros other Ho. by rewrite lookup_delete_ne.
Qed.

(** X19: registering a port makes it the current client and records its
    time stamp, replacing an older one, without changing any other client;
    the number of clients grows by one for a new port and not at all for a
    known one. *)
Theorem register_records_client {time} port (now : time)
    (a : app.Application) :
  app.current_client (app.register_client port now a) = Some port
  ∧ app.clients (app.register_client port now a) !! port = Some now
  ∧ (∀ other, other ≠ port →
              app.clients (app.register_client port now a) !! other
              = app.clients a !! other)
  ∧ size (app.clients (app.register_client port now a))
    = (match app.clients a !! port with
       | Some _ => size (app.clients a)
       | None => S (size (app.clients a))
       end).
Proof.
  unfold app.register_client. simpl. split; [done|].
  split; [apply lookup_insert_eq|]. split.
  - intros other Ho. by rewrite lookup_insert_ne.
  - rewrite map_size_insert. by destruct (app.clients a !! port).
Qed.

(** ** Errors that count, and errors that do not *)

Lemma process_handler_not_halting data c :
  Forall (λ item, ¬ halting data item) (_plugin_model c) →
  process_handler data c
  = (Returned tt,
     set_has_errors (errors_after data (_plugin_model c) (_has_errors c))
       (set_model Plugins (fold_plugin data <$> _plugin_model c)
          (set_model Instances (fold_instance data <$> _instance_model c)
             c))).
Proof.
  intros Hno. unfold process_handler.
  unfold mbind at 1, M_bind at 1. rewrite update_instances_eq.
  rewrite update_plugins_unfold. unfold mbind, M_bind, gets, enumerate.
  rewrite (update_plugins_runs data (_plugin_model c) []); [done|done|].
  by left.
Qed.

Lemma existsb_names_false data (items : list Item) :
  (∀ item, item ∈ items → plugin data ≠ Some (name item)) →
  existsb (names data) items = false.
Proof.
  intros H. induction items as [|x items IH]; [done|]. simpl.
  unfold names at 1. rewrite bool_decide_eq_false_2.
  - apply IH. intros item Hin. apply H. by apply list_elem_of_further.
  - apply H, list_elem_of_here.
Qed.

(** X21: a result that names no plugin of the collection (its [plugin]
    key is absent, or is an unknown name) never counts as an error of the
    run: even with its error flag set, and whatever instance it names,
    [hasErrors] and [isRunning] are as before and nothing is emitted.
    Every plugin gets [isProcessing = false] and is otherwise untouched;
    the instances are updated as usual. *)
Theorem instance_errors_do_not_count data c :
  (∀ item, item ∈ _plugin_model c → plugin data ≠ Some (name item)) →
  process_handler data c
  = (Returned tt,
     {| _instance_model := fold_instance data <$> _instance_model c;
        _plugin_model :=
          (λ item, setattr item (IsProcessing false)) <$> _plugin_model c;
        _system := _system c; _has_errors := _has_errors c;
        _is_running := _is_running c; trace := trace c |}).
Proof.
  intros Hno. rewrite process_handler_not_halting.
  - unfold errors_after. rewrite (existsb_names_false _ _ Hno).
    rewrite andb_false_r, orb_false_r. unfold set_has_errors. simpl.
    do 2 f_equal. apply list_fmap_ext. intros i x Hx. unfold fold_plugin.
    destruct (decide _) as [Hn|]; [|done].
    apply list_elem_of_lookup_2 in Hx. by destruct (Hno x Hx).
  - apply Forall_forall. intros x Hx [Hn _]. by apply (Hno x).
Qed.

Lemma instance_errors_do_not_count_witness :
  process_handler (step (Some "A") None true) studio_running
  = (Returned tt,
     {| _instance_model :=
          fold_instance (step (Some "A") None true)
            <$> _instance_model studio_running;
        _plugin_model :=
          (λ item, setattr item (IsProcessing false))
            <$> _plugin_model studio_running;
        _system := _system studio_running;
        _has_errors := _has_errors studio_running;
        _is_running := _is_running studio_running;
        trace := trace studio_running |}).
Proof.
  apply (instance_errors_do_not_count (step (Some "A") None true)
           studio_running).
  intros item Hin. simpl. discriminate.
Defined.

Lemma NoDup_name_inj (items : list Item) x y :
  NoDup (name <$> items) → x ∈ items → y ∈ items → name x = name y → x = y.
Proof.
  intros Hnd Hx Hy Hn. induction items as [|z items IH]; [by inversion Hx|].
  rewrite fmap_cons in Hnd. apply NoDup_cons in Hnd as [Hz Hnd].
  apply elem_of_cons in Hx as [->|Hx];
    apply elem_of_cons in Hy as [->|Hy]; [done| | |by apply IH].
  - destruct Hz. rewrite Hn. apply list_elem_of_fmap. eauto.
  - destruct Hz. rewrite <- Hn. apply list_elem_of_fmap. eauto.
Qed.

(** X22: a failed validation stops the extraction.  In a plugin
    collection with distinct names, once a result with its error flag set
    has named a plugin that is not an extractor, the run has [hasErrors],
    and a following result that names an extractor is not folded into the
    plugins: [isRunning] is cleared and the one info notification is
    emitted, whether or not that second result carries an error. *)
Theorem failed_validation_halts_extraction c failed extractor first second :
  NoDup (name <$> _plugin_model c) →
  failed ∈ _plugin_model c →
  extractor ∈ _plugin_model c →
  type failed ≠ "Extractor" →
  type extractor = "Extractor" →
  plugin first = Some (name failed) →
  error first = true →
  plugin second = Some (name extractor) →
  ∃ c',
    (process_handler first;; process_handler second) c = (Returned tt, c')
    ∧ _has_errors c' = true
    ∧ _is_running c' = false
    ∧ trace c' = trace c ++ [Info "Stopped due to failed vaildation"].
Proof.
  intros Hnd Hf He Htf Hte Hn1 Herr Hn2. unfold mbind, M_bind.
  rewrite process_handler_not_halting.
  2:{ apply Forall_forall. intros x Hx [Hn Ht]. apply Htf.
      assert (x = failed) as <-; [|done].
      apply (NoDup_name_inj (_plugin_model c)); [done..|congruence]. }
  assert (errors_after first (_plugin_model c) (_has_errors c) = true)
    as Hafter.
  { unfold errors_after. rewrite Herr. cbn [andb].
    apply orb_true_iff. right. apply existsb_exists. exists failed.
    split; [by apply list_elem_of_In|]. by apply bool_decide_eq_true. }
  rewrite Hafter.
  assert (halting second (fold_plugin first extractor)) as Hh.
  { destruct (same_identity_fold_plugin first extractor)
      as (Hname & Htype & _).
    split; [by rewrite Hname|by rewrite Htype]. }
  match goal with
  | |- context [process_handler second ?c1] =>
      destruct (process_handler_halts second c1
                  (fold_plugin first extractor)) as [plugins Hrun];
        [done| |done|]
  end.
  { simpl. apply list_elem_of_fmap. eauto. }
  rewrite Hrun. eexists. split; done.
Qed.

Lemma failed_validation_halts_extraction_witness :
  ∃ c',
    (process_handler (step None (Some "V") true);;
     process_handler (step None (Some "E") false)) studio_running
    = (Returned tt, c')
    ∧ _has_errors c' = true
    ∧ _is_running c' = false
    ∧ trace c' = trace studio_running
                 ++ [Info "Stopped due to failed vaildation"].
Proof.
  apply (failed_validation_halts_extraction studio_running
           (item "V" "Validator" false true)
           (item "E" "Extractor" true true)
           (step None (Some "V") true) (step None (Some "E") false)).
  - apply (bool_decide_unpack _). vm_compute. exact I.
  - apply list_elem_of_further, list_elem_of_here.
  - apply list_elem_of_here.
  - simpl. discriminate.
  - reflexivity.
  - reflexivity.
  - reflexivity.
  - reflexivity.
Defined.

(** ** The worker and the main thread, in any order *)



Lemma run_app schedule1 schedule2 s :
  run (schedule1 ++ schedule2) s = run schedule2 (run schedule1 s).
Proof. apply foldl_app. Qed.









(** [worker_loop] and [worker] are runs of the two threads: those in which
    the main thread takes its turn right after each emission. *)
Lemma finishing_is_a_run c status body answers :
  _is_running c && bool_decide (status = 200) = false →
  run [Worker; Worker; Main]
    {| shared := c; queue := []; position := Testing status body;
       host := answers |}
  = {| shared := (emit_finished c).2; queue := []; position := Done;
       host := answers |}.
Proof.
  intros Hcond. unfold run.
  cbn [foldl take_turn worker_turn main_turn position queue host shared app].
  rewrite Hcond.
  cbn [foldl take_turn worker_turn main_turn position queue host shared app].
  done.
Qed.

Lemma worker_loop_is_a_run pending :
  ∀ response c rest,
    ∃ schedule leftover,
      run schedule
        {| shared := c; queue := [];
           position := Testing (status_code response) (Some (json response));
           host := (answer_of <$> pending) ++ answer_of no_more_work :: rest |}
      = {| shared := (worker_loop pending response c).2; queue := [];
           position := Done; host := leftover |}.
Proof.
  induction pending as [|response' pending IH]; intros response c rest;
    rewrite worker_loop_unfold;
    destruct (_is_running c && bool_decide (status_code response = 200))
      eqn:Hcond.
  2,4: eexists [Worker; Worker; Main], _; by apply finishing_is_a_run.
  all: unfold emit_processed; unfold mbind at 1, M_bind at 1;
    unfold mbind at 1, M_bind at 1, emit at 1, modify at 1;
    destruct (process_handler_any (json response)
                (record (Processed (json response)) c))
      as (c1 & Hrun1 & _);
    rewrite Hrun1;
    unfold mbind at 1, M_bind at 1, emit at 1, modify at 1.
  - exists ([Worker; Worker; Main; Worker; Worker] ++ [Worker; Worker; Main]),
      rest.
    rewrite run_app. unfold run at 2.
    cbn [foldl take_turn worker_turn main_turn position queue host shared
           app fmap list_fmap].
    rewrite Hcond.
    cbn [foldl take_turn worker_turn main_turn position queue host shared
           app fmap list_fmap].
    rewrite Hrun1.
    cbn [foldl take_turn worker_turn main_turn position queue host shared
           app fmap list_fmap snd answer_of].
    apply finishing_is_a_run. apply andb_false_r.
  - destruct (IH response' (record (Request "POST" "/next" None) c1) rest)
      as (schedule & leftover & Hrun).
    exists ([Worker; Worker; Main; Worker; Worker] ++ schedule), leftover.
    rewrite run_app. unfold run at 2.
    cbn [foldl take_turn worker_turn main_turn position queue host shared
           app fmap list_fmap].
    rewrite Hcond.
    cbn [foldl take_turn worker_turn main_turn position queue host shared
           app fmap list_fmap].
    rewrite Hrun1.
    cbn [foldl take_turn worker_turn main_turn position queue host shared
           app fmap list_fmap snd answer_of].
    exact Hrun.
Qed.

Lemma worker_is_a_run replies c rest :
  ∃ schedule leftover,
    run schedule
      (spawn c ((answer_of <$> replies) ++ answer_of no_more_work :: rest))
    = {| shared := (worker replies c).2; queue := []; position := Done;
         host := leftover |}.
Proof.
  unfold worker. unfold mbind at 1, M_bind at 1, emit at 1, modify at 1.
  destruct replies as [|response pending].
  - exists ([Worker; Worker] ++ [Worker; Worker; Main]), rest.
    rewrite run_app. unfold run at 2, spawn.
    cbn [foldl take_turn worker_turn main_turn position queue host shared
           app fmap list_fmap answer_of].
    rewrite worker_loop_unfold.
    replace (_ && bool_decide (status_code no_more_work = 200)) with false
      by (symmetry; apply andb_false_r).
    apply finishing_is_a_run. apply andb_false_r.
  - destruct (worker_loop_is_a_run pending response
                (record (Request "POST" "/next" None) c) rest)
      as (schedule & leftover & Hrun).
    exists ([Worker; Worker] ++ schedule), leftover.
    rewrite run_app. unfold run at 2, spawn.
    cbn [foldl take_turn worker_turn main_turn position queue host shared
           app fmap list_fmap answer_of].
    exact Hrun.
Qed.




(** ** Commands from the host *)

Lemma get_signals n :
  match app.get app.signals n with
  | Some s => (n, s) ∈ app.signals
  | None => ∀ s, (n, s) ∉ app.signals
  end.
Proof.
  unfold app.signals. cbn [app.get].
  repeat (case_bool_decide;
          [subst n; rewrite list_elem_of_In; simpl; tauto|]).
  intros s. rewrite list_elem_of_In. simpl. intuition congruence.
Qed.

Lemma get_arities s :
  match app.get app.arities s with
  | Some n => (s, n) ∈ app.arities
  | None => ∀ n, (s, n) ∉ app.arities
  end.
Proof.
  unfold app.arities. cbn [app.get].
  repeat (case_bool_decide;
          [subst s; rewrite list_elem_of_In; simpl; tauto|]).
  intros n. rewrite list_elem_of_In. simpl. intuition congruence.
Qed.

Lemma arities_functional s n n' :
  (s, n) ∈ app.arities → (s, n') ∈ app.arities → n = n'.
Proof.
  rewrite !list_elem_of_In. unfold app.arities. simpl.
  intuition congruence.
Qed.

Lemma signals_injective n n' s :
  (n, s) ∈ app.signals → (n', s) ∈ app.signals → n = n'.
Proof.
  rewrite !list_elem_of_In. unfold app.signals. simpl.
  intuition congruence.
Qed.

(** X20: a command from the host is forwarded exactly when its name is
    one of the six of the table and the payload carries as many arguments
    as the signal of the table is declared with (none counting as zero):
    the signal is then emitted with those arguments.  A known name with
    another number of arguments emits nothing, the emission raises and
    the traceback is printed; a command of any other name emits nothing
    and is answered by the line that it was unavailable.  Two commands
    forwarded to the same signal have the same name. *)
Theorem listen_forwards_known {value} (p : app.payload (value := value)) :
  match app._listen p with
  | app.Emitted signal arguments =>
      (app.name p, signal) ∈ app.signals
      ∧ arguments = match app.args p with Some l => l | None => [] end
      ∧ (signal, length arguments) ∈ app.arities
  | app.Unavailable line =>
      (∀ signal, (app.name p, signal) ∉ app.signals)
      ∧ line = "'" +:+ app.name p +:+ "' was unavailable."
  | app.Traceback =>
      ∃ signal,
        (app.name p, signal) ∈ app.signals
        ∧ (signal,
           length (match app.args p with Some l => l | None => [] end))
          ∉ app.arities
  end
  ∧ ∀ q : app.payload (value := value),
      match app._listen p, app._listen q with
      | app.Emitted s _, app.Emitted s' _ => s = s' → app.name p = app.name q
      | _, _ => True
      end.
Proof.
  assert (∀ r : app.payload (value := value),
            match app._listen r with
            | app.Emitted signal arguments =>
                (app.name r, signal) ∈ app.signals
                ∧ arguments
                  = match app.args r with Some l => l | None => [] end
                ∧ (signal, length arguments) ∈ app.arities
            | app.Unavailable line =>
                (∀ signal, (app.name r, signal) ∉ app.signals)
                ∧ line = "'" +:+ app.name r +:+ "' was unavailable."
            | app.Traceback =>
                ∃ signal,
                  (app.name r, signal) ∈ app.signals
                  ∧ (signal,
                     length (match app.args r with
                             | Some l => l | None => [] end))
                    ∉ app.arities
            end) as Hone.
  { intros r. unfold app._listen.
    pose proof (get_signals (app.name r)) as Hs.
    destruct (app.get app.signals (app.name r)) as [signal|]; [|done].
    pose proof (get_arities signal) as Ha.
    destruct (app.get app.arities signal) as [n|].
    - case_bool_decide as Hn.
      + split; [done|]. split; [done|]. by rewrite Hn.
      + exists signal. split; [done|]. intros Hin. apply Hn.
        by apply (arities_functional signal).
    - exists signal. split; [done|]. apply Ha. }
  split; [apply Hone|].
  intros q. pose proof (Hone p) as Hp. pose proof (Hone q) as Hq.
  destruct (app._listen p); [done| |done].
  destruct (app._listen q); [done| |done].
  intros ->. destruct Hp as [Hp _], Hq as [Hq _].
  by eapply signals_injective.
Qed.
